(** * Multicall solvers and the detached harvest worker

  A shallow embedding of
  - [ThreePoolCrvMulticall] and [CurveSpellEthMulticall] (the two multicall
    solvers: [match] and [solve]), and
  - [04-v2-jobs-work-harvest.ts] (the detached harvest worker [main]),
  followed by the properties of the specification that were checked
  against them.

  Conventions.  An ethers [BigNumber] is a [Z] (it has no fixed width and
  may be negative); an address is a [string], compared as JavaScript
  compares strings (case sensitive); the chain, the quote provider and the
  job contract are external and are taken as parameters, every call to
  them being allowed to fail. *)

From Stdlib Require Import ZArith String Ascii List DecimalString.
From Stdlib Require Import DecimalPos DecimalFacts Permutation.
From stdpp Require Import gmap strings list.
Import ListNotations.

Local Open Scope Z_scope.
Local Open Scope string_scope.

(* ===================================================================== *)
(** * JavaScript values and the library calls the scripts rely on *)
(* ===================================================================== *)

Module JS.

(** [String.prototype.toLowerCase] on the ASCII range. *)
Definition lower_ascii (c : ascii) : ascii :=
  let n := nat_of_ascii c in
  if ((65 <=? n)%nat && (n <=? 90)%nat)%bool then ascii_of_nat (n + 32) else c.

Fixpoint toLowerCase (s : string) : string :=
  match s with
  | EmptyString => EmptyString
  | String c s' => String (lower_ascii c) (toLowerCase s')
  end.

(** [s.indexOf(p) > -1]: [p] occurs in [s]. *)
Fixpoint occurs (p s : string) : bool :=
  String.prefix p s ||
  match s with
  | EmptyString => false
  | String _ s' => occurs p s'
  end.

(** The value a trade's [_tokenIn] holds at run time: one address, or an
    array of addresses. *)
Inductive value : Type :=
| Str (s : string)
| Arr (l : list string).

(** [ToPrimitive]: an array of strings becomes its elements joined by
    commas ([Array.prototype.toString]). *)
Definition toPrimitive (v : value) : string :=
  match v with
  | Str s => s
  | Arr l => String.concat "," l
  end.

(** [v == s] for a string [s] (abstract equality). *)
Definition loose_eq (v : value) (s : string) : bool :=
  String.eqb (toPrimitive v) s.

(** lodash [_.includes(collection, value)]: a substring test on a string,
    a membership test ([SameValueZero]) on an array. *)
Definition includes (collection : value) (x : string) : bool :=
  match collection with
  | Str s => occurs x s
  | Arr l => existsb (String.eqb x) l
  end.

(** [BigNumber.prototype.toString()]: the decimal numeral. *)
Definition bn_toString (x : Z) : string :=
  NilZero.string_of_int (Z.to_int x).

(** [a < b] on two [BigNumber] objects.  The class defines no [valueOf],
    so the relational operator converts both operands with [toString] and
    compares the two decimal numerals as strings, code unit by code
    unit. *)
Definition bn_lt_operator (a b : Z) : bool :=
  String.ltb (bn_toString a) (bn_toString b).

(** [a.lte(b)], [a.eq(b)], [a.sub(b)], [a.mul(b)], [a.div(b)]: the
    arithmetic of the methods is exact; [div] truncates. *)
Definition lte (a b : Z) : bool := (a <=? b)%Z.
Definition eq (a b : Z) : bool := (a =? b)%Z.
Definition sub (a b : Z) : Z := a - b.
Definition mul (a b : Z) : Z := a * b.
Definition div (a b : Z) : Z := Z.quot a b.

(** [constants.MaxUint256] *)
Definition MaxUint256 : Z := 2 ^ 256 - 1.

(** [BigNumber.prototype.toNumber()]: throws unless the value fits in 53
    bits. *)
Definition toNumber (x : Z) : option Z :=
  if (Z.abs x <? 2 ^ 53)%Z then Some x else None.

End JS.

(* ===================================================================== *)
(** * The multicall solvers *)
(* ===================================================================== *)

Definition address := string.

(** Modelled from the spec: the declaration of [ExtendedEnabledTrade] is not
  among the sources.  The spec gives a trade a strategy address, a tokenIn
  address and a tokenOut address; [_tokenIn] is a [JS.value] so that it can
  also be the array of addresses which [_.includes] searches in
  [CurveSpellEthMulticall.match]. *)
Record ExtendedEnabledTrade : Type := {
_strategy : address;
_tokenIn : JS.value;
_tokenOut : address;
}.

(** Calldata, by the contract function it encodes.  [quoted] is the opaque
  calldata a quote carries. *)
Inductive calldata : Type :=
| transfer (recipient : address) (amount : Z)
| approve (spender : address) (amount : Z)
| remove_liquidity_one_coin (token_amount i min_amount : Z)
| vault_withdraw (maxShares : Z) (recipient : address) (maxLoss : Z)
| weth_withdraw (wad : Z)
| add_liquidity (amounts : Z * Z) (min_mint_amount : Z) (use_eth : bool)
  (receiver : address)
| quoted (data : string).

(** A transaction request: [{ to, data, value }]. *)
Record Tx : Type := {
to : address;
data : calldata;
value : option Z;
}.

(** The argument and the answer of [zrx.quote].  [slippagePercentage] is the
  source's quotient [10 / 100], kept as numerator and denominator. *)
Record QuoteRequest : Type := {
chainId : Z;
sellToken : address;
buyToken : address;
sellAmount : Z;
slippagePercentage : Z * Z;
}.

Record QuoteResponse : Type := {
q_data : string;
allowanceTarget : address;
}.

(** The trade descriptor of [TradeFactory.execute]. *)
Record TradeDescriptor : Type := {
d_strategy : address;
d_tokenIn : JS.value;
d_tokenOut : address;
d_amount : Z;
d_minAmountOut : Z;
}.

(** Modelled from the spec: [mergeTransactions] is not among the sources.
  The spec gives it an ordered list of calls and has it produce one
  payload that the executor unpacks and replays in order; the payload is
  represented by the call list it decodes to. *)
Definition mergeTransactions (transactions : list Tx) : list Tx := transactions.

(** The populated [execute] call: one descriptor for the single-trade
  overload, a list for the multi-trade overload. *)
Record ExecuteTx : Type := {
e_trades : list TradeDescriptor;
e_swapper : address;
e_data : list Tx;
}.

Record TradeSetup : Type := {
swapperName : string;
transaction : ExecuteTx;
}.

(** What a solve does to the outside world, in program order: a transaction
  sent by a signer, or a quote request. *)
Inductive event : Type :=
| Sent (from : address) (tx : Tx)
| Quoted (req : QuoteRequest).

(** What a solve can throw: the string the solver itself throws, or the
  failure of the external call that was being attempted. *)
Inductive thrown : Type :=
| ThrownString (s : string)
| CallFailed (e : event).

(** The forked chain and the quote provider.  Reads are functions of the
  chain state; a transaction either yields the next state or fails; a
  quote is answered or fails. *)
Class Chain (chain : Type) : Type := {
balanceOf : chain -> address -> address -> Z;
allowance : chain -> address -> address -> address -> Z;
sendTransaction : chain -> address -> Tx -> option chain;
zrx_quote : chain -> QuoteRequest -> option QuoteResponse;
}.

(** ** The monad of a solve: chain state, trace of events, exceptions *)

Section SolveMonad.
Context {chain : Type} `{Chain chain}.

Record world : Type := { w_chain : chain; w_trace : list event }.

Definition M (A : Type) : Type := world -> world * (thrown + A).

Definition ret {A} (a : A) : M A := fun w => (w, inr a).

Definition bind {A B} (m : M A) (k : A -> M B) : M B :=
  fun w =>
    match m w with
    | (w', inl e) => (w', inl e)
    | (w', inr a) => k a w'
    end.

Definition throw {A} (e : thrown) : M A := fun w => (w, inl e).

(** A read of the current chain state. *)
Definition view {A} (f : chain -> A) : M A := fun w => (w, inr (f (w_chain w))).

Definition record (e : event) (w : world) : world :=
  {| w_chain := w_chain w; w_trace := (w_trace w ++ [e])%list |}.

(** [contract.f(args)] through a signer, or [signer.sendTransaction(tx)]. *)
Definition send (from : address) (tx : Tx) : M unit :=
  fun w =>
    let w' := record (Sent from tx) w in
    match sendTransaction (w_chain w) from tx with
    | Some c => ({| w_chain := c; w_trace := w_trace w' |}, inr tt)
    | None => (w', inl (CallFailed (Sent from tx)))
    end.

(** [zrx.quote(req)] *)
Definition quote (req : QuoteRequest) : M QuoteResponse :=
  fun w =>
    let w' := record (Quoted req) w in
    match zrx_quote (w_chain w) req with
    | Some r => (w', inr r)
    | None => (w', inl (CallFailed (Quoted req)))
    end.

Definition when (b : bool) (m : M unit) : M unit := if b then m else ret tt.

(** Running a solve on a chain state, from an empty trace. *)
Definition run {A} (m : M A) (c : chain) : world * (thrown + A) :=
  m {| w_chain := c; w_trace := [] |}.

End SolveMonad.

Notation "'let!' x ':=' m 'in' k" := (bind m (fun x => k))
  (at level 10, x name, m at level 100, k at level 200).
Notation "'do!' m 'in' k" := (bind m (fun _ => k))
  (at level 10, m at level 100, k at level 200).

(** A call of a contract method without overrides, and with a value. *)
Definition call (target : address) (d : calldata) : Tx :=
  {| to := target; data := d; value := None |}.
Definition call_value (target : address) (d : calldata) (v : Z) : Tx :=
  {| to := target; data := d; value := Some v |}.

(** ** ThreePoolCrvMulticall: 3crv => usdc => yvBOOST => yveCRV *)

Module ThreePoolCrvMulticall.

Definition threeCrv : address := "0x6c3F90f043a72FA612cbac8115EE7e52BDe6E490".
Definition yveCrv : address := "0xc5bDdf9843308380375a611c18B50Fb9341f502A".
Definition yvBoost : address := "0x9d409a0A012CFbA9B15F6D4B36Ac57A46966Ab9a".
Definition strategy : address := "0x91C3424A608439FBf3A91B6d954aF0577C1B9B8A".
Definition crv3Pool : address := "0xbEbc44782C7dB0a1A60Cb6fe97d0b483032FF1C7".
Definition usdc : address := "0xA0b86991c6218b36c1d19D4a2e9Eb0cE3606eB48".
Definition multicallSwapper : address := "0xceB202F25B50e8fAF212dE3CA6C53512C37a01D2".
Definition zrxContract : address := "0xDef1C0ded9bec7F1a1670819833240f027b25EfF".

(** The amount sold in the swap leg: the balance delta, less one wei when
    the delta is the whole balance. *)
Definition dust (usdcBalancePre usdcBalanceTotal : Z) : Z :=
  let usdcBalance := JS.sub usdcBalanceTotal usdcBalancePre in
  if JS.eq usdcBalanceTotal usdcBalance then JS.sub usdcBalance 1 else usdcBalance.

Definition quoteRequest (usdcBalance : Z) : QuoteRequest :=
  {| chainId := 1; sellToken := usdc; buyToken := yvBoost;
     sellAmount := usdcBalance; slippagePercentage := (10, 100) |}.

Section Solve.
Context {chain : Type} `{Chain chain}.

Definition solve (trade : ExtendedEnabledTrade) : M TradeSetup :=
  let! amount := view (fun c => balanceOf c threeCrv (_strategy trade)) in
  do! send strategy (call threeCrv (transfer multicallSwapper amount)) in
  (* Withdraw usdc from crv3Pool *)
  let! usdcBalancePre := view (fun c => balanceOf c usdc multicallSwapper) in
  do! send multicallSwapper (call crv3Pool (remove_liquidity_one_coin amount 1 0)) in
  let! usdcBalanceTotal := view (fun c => balanceOf c usdc multicallSwapper) in
  let usdcBalance := dust usdcBalancePre usdcBalanceTotal in
  (* Trade USDC for yvBOOST in zrx *)
  let! q := quote (quoteRequest usdcBalance) in
  let tx := call zrxContract (quoted (q_data q)) in
  let! current := view (fun c => allowance c usdc multicallSwapper (allowanceTarget q)) in
  let approveUsdc := JS.bn_lt_operator current usdcBalance in
  do! when approveUsdc
        (send multicallSwapper (call usdc (approve (allowanceTarget q) JS.MaxUint256))) in
  do! send multicallSwapper tx in
  (* Withdrawing yvBOOST *)
  do! send multicallSwapper
        (call yvBoost (vault_withdraw JS.MaxUint256 multicallSwapper 0)) in
  let! yveCrvBalance := view (fun c => balanceOf c yveCrv multicallSwapper) in
  (* Create txs for multichain swapper *)
  let transactions :=
    ([call crv3Pool (remove_liquidity_one_coin amount 1 0)]
     ++ (if approveUsdc
         then [call usdc (approve (allowanceTarget q) JS.MaxUint256)] else [])
     ++ [tx]
     ++ [call yvBoost (vault_withdraw JS.MaxUint256 strategy 0)])%list in
  let data := mergeTransactions transactions in
  ret {| swapperName := "ThreePoolCrvMulticall";
         transaction :=
           {| e_trades :=
                [ {| d_strategy := _strategy trade;
                     d_tokenIn := _tokenIn trade;
                     d_tokenOut := _tokenOut trade;
                     d_amount := amount;
                     d_minAmountOut := yveCrvBalance |} ];
              e_swapper := multicallSwapper;
              e_data := data |} |}.

End Solve.

Definition match_ (trade : ExtendedEnabledTrade) : bool :=
  String.eqb (_strategy trade) strategy
  && JS.loose_eq (_tokenIn trade) threeCrv
  && String.eqb (_tokenOut trade) yveCrv.

End ThreePoolCrvMulticall.

(** ** CurveSpellEthMulticall: crv, cvx => weth => eth => spell/eth *)

Module CurveSpellEthMulticall.

Definition crvSpellEth : address := "0x8282BD15dcA2EA2bDf24163E8f2781B30C43A2ef".
Definition strategy : address := "0xeDB4B647524FC2B9985019190551b197c6AB6C5c".
Definition curveSwap : address := "0x98638FAcf9a3865cd033F36548713183f6996122".
Definition crv : address := "0xD533a949740bb3306d119CC777fa900bA034cd52".
Definition cvx : address := "0x4e3FBD56CD56c3e72c1403e103b45Db9da5B9D2B".
Definition weth : address := "0xC02aaA39b223FE8D0A0e5C4F27eAD9083C756Cc2".
Definition multicallSwapper : address := "0x7F036fa7B01E7c0286AFd4c7f756dd367E90a5f8".
Definition zrxContract : address := "0xDef1C0ded9bec7F1a1670819833240f027b25EfF".

Definition quoteRequest (token : address) (balance : Z) : QuoteRequest :=
  {| chainId := 1; sellToken := token; buyToken := weth;
     sellAmount := balance; slippagePercentage := (10, 100) |}.

Section Solve.
Context {chain : Type} `{Chain chain}.

Definition solve (trade : ExtendedEnabledTrade) : M TradeSetup :=
  let! crvBalance := view (fun c => balanceOf c crv strategy) in
  let! cvxBalance := view (fun c => balanceOf c cvx strategy) in
  do! (if JS.lte crvBalance 0 && JS.lte cvxBalance 0
       then throw (ThrownString ":shrug:") else ret tt) in
  (* cvx/crv transfer to swapper for simulations *)
  do! send strategy (call crv (transfer multicallSwapper crvBalance)) in
  do! send strategy (call cvx (transfer multicallSwapper cvxBalance)) in
  (* Trade crv for weth *)
  let! qCrv := quote (quoteRequest crv crvBalance) in
  let! currentCrv :=
    view (fun c => allowance c crv multicallSwapper (allowanceTarget qCrv)) in
  let approveCrv := JS.bn_lt_operator currentCrv crvBalance in
  do! when approveCrv
        (send multicallSwapper (call crv (approve (allowanceTarget qCrv) JS.MaxUint256))) in
  let crvToWethTx := call zrxContract (quoted (q_data qCrv)) in
  do! send multicallSwapper crvToWethTx in
  (* Trade cvx for weth *)
  let! qCvx := quote (quoteRequest cvx cvxBalance) in
  let! currentCvx :=
    view (fun c => allowance c crv multicallSwapper (allowanceTarget qCvx)) in
  let approveCvx := JS.bn_lt_operator currentCvx cvxBalance in
  do! when approveCvx
        (send multicallSwapper (call cvx (approve (allowanceTarget qCvx) JS.MaxUint256))) in
  let cvxToWethTx := call zrxContract (quoted (q_data qCvx)) in
  do! send multicallSwapper cvxToWethTx in
  (* Convert weth to eth *)
  let! wethBalance := view (fun c => balanceOf c weth multicallSwapper) in
  do! send multicallSwapper (call weth (weth_withdraw wethBalance)) in
  (* Convert weth to crvSpellEth *)
  do! send multicallSwapper
        (call_value curveSwap (add_liquidity (wethBalance, 0) 0 true strategy) wethBalance) in
  (* Create txs for multichain swapper *)
  let transactions :=
    ((if approveCrv
      then [call crv (approve (allowanceTarget qCrv) JS.MaxUint256)] else [])
     ++ [crvToWethTx]
     ++ (if approveCvx
         then [call cvx (approve (allowanceTarget qCvx) JS.MaxUint256)] else [])
     ++ [cvxToWethTx]
     ++ [call weth (weth_withdraw wethBalance)]
     ++ [call_value curveSwap (add_liquidity (wethBalance, 0) 0 true strategy)
           wethBalance])%list in
  let data := mergeTransactions transactions in
  ret {| swapperName := "CurveSpellEthMulticall";
         transaction :=
           {| e_trades :=
                [ {| d_strategy := strategy;
                     d_tokenIn := JS.Str crv;
                     d_tokenOut := _tokenOut trade;
                     d_amount := crvBalance;
                     d_minAmountOut := 0 |};
                  {| d_strategy := strategy;
                     d_tokenIn := JS.Str cvx;
                     d_tokenOut := _tokenOut trade;
                     d_amount := cvxBalance;
                     d_minAmountOut := 0 |} ];
              e_swapper := multicallSwapper;
              e_data := data |} |}.

End Solve.

Definition match_ (trade : ExtendedEnabledTrade) : bool :=
  String.eqb (_strategy trade) strategy
  && JS.includes (_tokenIn trade) crv
  && JS.includes (_tokenIn trade) cvx
  && String.eqb (_tokenOut trade) crvSpellEth.

End CurveSpellEthMulticall.

(* ===================================================================== *)
(** * The detached harvest worker *)
(* ===================================================================== *)

Module Harvest.

(** The entries of [harvestConfigurations] (the table itself is a parameter
    of [main]: it is not among the sources). *)
Record HarvestConfiguration : Type := {
  address : string;
  tokensBeingDumped : list string;
}.

(** The job contract and the local clock.  An instant is the number of
    interactions with the outside world so far; what a call answers may
    depend on the instant, and [None] is a rejected call.  [moment_unix] is
    [moment().unix()], the local time in seconds. *)
Record Env : Type := {
  job_strategies : nat -> option (list string);
  job_lastWorkAt : nat -> string -> option Z;
  job_workable : nat -> string -> option bool;
  job_estimateGas_work : nat -> string -> option Z;
  job_work : nat -> string -> Z -> option string;
  moment_unix : nat -> Z;
}.

(** The module-level accumulators, the current instant, and two histories
    kept for the statements below: the [work] calls made (strategy and gas
    limit) and the stores into [lastTimeRewardWasDumped] (token, value found,
    value stored). *)
Record State : Type := {
  now : nat;
  lastTimeRewardWasDumped : gmap string Z;
  worked : list string;
  notWorkable : list string;
  onLiquidityCooldown : list string;
  errorWhileWorked : list string;
  workCalls : list (string * Z);
  stores : list (string * option Z * Z);
}.

(** What makes [main] reject (exit code 1). *)
Inductive uncaught : Type :=
| CallRejected
| MismatchError (message : string).

(** [moment.duration('2.5', 'minutes')], in seconds. *)
Definition REWARD_DUMPED_COOLDOWN : Z := 150.

Definition sbeetStrats : list string :=
  [ "0xB905eabA7A23424265638bdACFFE55564c7B299B";
    "0x56aF79e182a7f98ff6d0bF99d589ac2CabA24e2d";
    "0x85c307D24da7086c41537b994de9bFc4C21BAEB5";
    "0xBd3791F3Dcf9DD5633cd30662381C80a2Cd945bd";
    "0xbBdc83357287a29Aae30cCa520D4ed6C750a2a11";
    "0x4003eE222d44953B0C3eB61318dD211a4A6f109f";
    "0x36E74086C388305CEcdeff83d6cf31a2762A3c91";
    "0x1c13C43f8F2fa0CdDEE6DFF6F785757650B8c2BF";
    "0xfD7E0cCc4dE0E3022F47834d7f0122274c37a0d1";
    "0x8Bb79E595E1a21d160Ba3f7f6C94efF1484FB4c9" ].

(** [sbeetStrats.indexOf(strategy) === -1] *)
Definition not_denied (strategy : string) : bool :=
  negb (existsb (String.eqb strategy) sbeetStrats).

Definition initial (t : nat) : State :=
  {| now := t; lastTimeRewardWasDumped := ∅; worked := []; notWorkable := [];
     onLiquidityCooldown := []; errorWhileWorked := []; workCalls := [];
     stores := [] |}.

Definition tick (st : State) : State :=
  {| now := S (now st);
     lastTimeRewardWasDumped := lastTimeRewardWasDumped st;
     worked := worked st; notWorkable := notWorkable st;
     onLiquidityCooldown := onLiquidityCooldown st;
     errorWhileWorked := errorWhileWorked st;
     workCalls := workCalls st; stores := stores st |}.

(** [lastTimeRewardWasDumped[token] = v] *)
Definition store (token : string) (v : Z) (st : State) : State :=
  {| now := now st;
     lastTimeRewardWasDumped := <[token := v]> (lastTimeRewardWasDumped st);
     worked := worked st; notWorkable := notWorkable st;
     onLiquidityCooldown := onLiquidityCooldown st;
     errorWhileWorked := errorWhileWorked st;
     workCalls := workCalls st;
     stores := stores st ++ [(token, lastTimeRewardWasDumped st !! token, v)] |}.

Definition push_worked (strategy : string) (st : State) : State :=
  {| now := now st;
     lastTimeRewardWasDumped := lastTimeRewardWasDumped st;
     worked := worked st ++ [strategy]; notWorkable := notWorkable st;
     onLiquidityCooldown := onLiquidityCooldown st;
     errorWhileWorked := errorWhileWorked st;
     workCalls := workCalls st; stores := stores st |}.

Definition push_notWorkable (strategy : string) (st : State) : State :=
  {| now := now st;
     lastTimeRewardWasDumped := lastTimeRewardWasDumped st;
     worked := worked st; notWorkable := notWorkable st ++ [strategy];
     onLiquidityCooldown := onLiquidityCooldown st;
     errorWhileWorked := errorWhileWorked st;
     workCalls := workCalls st; stores := stores st |}.

Definition push_onLiquidityCooldown (strategy : string) (st : State) : State :=
  {| now := now st;
     lastTimeRewardWasDumped := lastTimeRewardWasDumped st;
     worked := worked st; notWorkable := notWorkable st;
     onLiquidityCooldown := onLiquidityCooldown st ++ [strategy];
     errorWhileWorked := errorWhileWorked st;
     workCalls := workCalls st; stores := stores st |}.

(** The [catch] block. *)
Definition push_errorWhileWorked (strategy : string) (st : State) : State :=
  {| now := now st;
     lastTimeRewardWasDumped := lastTimeRewardWasDumped st;
     worked := worked st; notWorkable := notWorkable st;
     onLiquidityCooldown := onLiquidityCooldown st;
     errorWhileWorked := errorWhileWorked st ++ [strategy];
     workCalls := workCalls st; stores := stores st |}.

Definition push_workCall (strategy : string) (gasLimit : Z) (st : State) : State :=
  {| now := now st;
     lastTimeRewardWasDumped := lastTimeRewardWasDumped st;
     worked := worked st; notWorkable := notWorkable st;
     onLiquidityCooldown := onLiquidityCooldown st;
     errorWhileWorked := errorWhileWorked st;
     workCalls := workCalls st ++ [(strategy, gasLimit)]; stores := stores st |}.

Section Main.
Variable env : Env.
Variable harvestConfigurations : list HarvestConfiguration.

(** [harvestConfigurations.find(c => c.address.toLowerCase() ===
    strategy.toLowerCase())] *)
Definition find_configuration (strategy : string) : option HarvestConfiguration :=
  List.find
    (fun harvestConfiguration =>
       String.eqb (JS.toLowerCase (address harvestConfiguration))
                  (JS.toLowerCase strategy))
    harvestConfigurations.

Definition getLastWorkAt (t : nat) (strategy : string) : option (string * Z) :=
  match job_lastWorkAt env t strategy with
  | Some v =>
      match JS.toNumber v with
      | Some timestamp => Some (strategy, timestamp)
      | None => None
      end
  | None => None
  end.

(** [Promise.all(strategies.map(getLastWorkAt))]: one call per strategy, at
    successive instants from [t]; rejected as soon as one call is. *)
Fixpoint getLastWorksAt (t : nat) (strategies : list string)
  : option (list (string * Z)) :=
  match strategies with
  | [] => Some []
  | strategy :: rest =>
      match getLastWorkAt t strategy with
      | None => None
      | Some lastWorkAt =>
          match getLastWorksAt (S t) rest with
          | None => None
          | Some lastWorksAt => Some (lastWorkAt :: lastWorksAt)
          end
      end
  end.

(** The body of the inner [forEach] of the map construction. *)
Definition note_dump (timestamp : Z) (st : State) (tokenBeingDumped : string) : State :=
  match lastTimeRewardWasDumped st !! tokenBeingDumped with
  | None => store tokenBeingDumped timestamp st
  | Some last =>
      if (timestamp >? last)%Z then store tokenBeingDumped timestamp st else st
  end.

(** Map when was the last time a reward token was dumped. *)
Fixpoint map_rewards (lastWorksAt : list (string * Z)) (st : State)
  : uncaught + State :=
  match lastWorksAt with
  | [] => inr st
  | (strategy, timestamp) :: rest =>
      match find_configuration strategy with
      | None =>
          inl (MismatchError "Mismatch between harvests configuration and job strategies")
      | Some harvestConfiguration =>
          map_rewards rest
            (fold_left (note_dump timestamp) (tokensBeingDumped harvestConfiguration) st)
      end
  end.

(** One round of the cooldown [forEach]: the clock is read only when the
    flag is still false ([||] short-circuits); a token without an entry
    compares as false. *)
Definition cooldown_round (acc : State * bool) (tokenBeingDumped : string)
  : State * bool :=
  let (st, isStratOnLiquidityCooldown) := acc in
  if isStratOnLiquidityCooldown then (st, true)
  else
    (tick st,
     match lastTimeRewardWasDumped st !! tokenBeingDumped with
     | Some last => (moment_unix env (now st) - REWARD_DUMPED_COOLDOWN <=? last)%Z
     | None => false
     end).

(** [lastTimeRewardWasDumped[tokenBeingDumped] = moment().unix()] *)
Definition mark_dumped (st : State) (tokenBeingDumped : string) : State :=
  tick (store tokenBeingDumped (moment_unix env (now st)) st).

(** The body of the [for] loop, [try] and [catch] included. *)
Definition work_strategy (st : State) (strategy : string) : State :=
  match job_workable env (now st) strategy with
  | None => push_errorWhileWorked strategy (tick st)
  | Some false => push_notWorkable strategy (tick st)
  | Some true =>
      match find_configuration strategy with
      | None => push_errorWhileWorked strategy (tick st)
      | Some strategyHarvestConfiguration =>
          let tokens := tokensBeingDumped strategyHarvestConfiguration in
          let (st1, isStratOnLiquidityCooldown) :=
            fold_left cooldown_round tokens (tick st, false) in
          if isStratOnLiquidityCooldown then push_onLiquidityCooldown strategy st1
          else
            match job_estimateGas_work env (now st1) strategy with
            | None => push_errorWhileWorked strategy (tick st1)
            | Some gasLimit =>
                let limit := JS.div (JS.mul gasLimit 110) 100 in
                let st2 := push_workCall strategy limit (tick st1) in
                match job_work env (now st2) strategy limit with
                | None => push_errorWhileWorked strategy (tick st2)
                | Some tx =>
                    push_worked strategy (fold_left mark_dumped tokens (tick st2))
                end
            end
      end
  end.

(** The strategies of the job that are not on the deny list. *)
Definition eligible (all : list string) : list string :=
  List.filter not_denied all.

(** Everything before the [for] loop. *)
Definition prepare : uncaught + (list string * State) :=
  match job_strategies env 0 with
  | None => inl CallRejected
  | Some all =>
      let strategies := eligible all in
      match getLastWorksAt 1 strategies with
      | None => inl CallRejected
      | Some lastWorksAt =>
          match map_rewards lastWorksAt (initial (S (length strategies))) with
          | inl e => inl e
          | inr st => inr (strategies, st)
          end
      end
  end.

Definition main : uncaught + State :=
  match prepare with
  | inl e => inl e
  | inr (strategies, st) => inr (fold_left work_strategy strategies st)
  end.

End Main.

End Harvest.

(* ===================================================================== *)
(** * Notions used in the statements, and scripted environments *)
(* ===================================================================== *)

(** [x] is found in the collection [v]: as a substring of a string, as an
    element of an array. *)
Definition Includes (v : JS.value) (x : string) : Prop :=
  match v with
  | JS.Str s => exists a b : string, s = a ++ x ++ b
  | JS.Arr l => In x l
  end.

(** The reading of [match] by one fixed triple: a strategy, a tokenIn and a
    set of accepted tokenOut. *)
Definition matches_one_triple (m : ExtendedEnabledTrade -> bool) : Prop :=
  exists (s : address) (tin : JS.value) (outs : list address),
    forall t, m t = true <-> _strategy t = s /\ _tokenIn t = tin /\ In (_tokenOut t) outs.

(** Two trades for the two-source solver, [_tokenIn] being an array that
    holds both addresses, in either order. *)
Definition crv_cvx_trade : ExtendedEnabledTrade :=
  {| _strategy := CurveSpellEthMulticall.strategy;
     _tokenIn := JS.Arr [CurveSpellEthMulticall.crv; CurveSpellEthMulticall.cvx];
     _tokenOut := CurveSpellEthMulticall.crvSpellEth |}.

Definition cvx_crv_trade : ExtendedEnabledTrade :=
  {| _strategy := CurveSpellEthMulticall.strategy;
     _tokenIn := JS.Arr [CurveSpellEthMulticall.cvx; CurveSpellEthMulticall.crv];
     _tokenOut := CurveSpellEthMulticall.crvSpellEth |}.

(** The same two trades with [_tokenIn] a string that contains both
    addresses. *)
Definition crv_cvx_string_trade : ExtendedEnabledTrade :=
  {| _strategy := CurveSpellEthMulticall.strategy;
     _tokenIn := JS.Str (CurveSpellEthMulticall.crv ++ CurveSpellEthMulticall.cvx);
     _tokenOut := CurveSpellEthMulticall.crvSpellEth |}.

Definition cvx_crv_string_trade : ExtendedEnabledTrade :=
  {| _strategy := CurveSpellEthMulticall.strategy;
     _tokenIn := JS.Str (CurveSpellEthMulticall.cvx ++ CurveSpellEthMulticall.crv);
     _tokenOut := CurveSpellEthMulticall.crvSpellEth |}.

(** The transactions of a trace, in order; and those of one sender. *)
Definition sent (trace : list event) : list Tx :=
  flat_map (fun e => match e with Sent _ tx => [tx] | Quoted _ => [] end) trace.

Definition sent_by (who : address) (trace : list event) : list Tx :=
  flat_map
    (fun e =>
       match e with
       | Sent from tx => if String.eqb from who then [tx] else []
       | Quoted _ => []
       end)
    trace.

(** A scripted chain, as a test double would provide it: the state is the
    number of transactions executed so far, and the script says what each
    read, transaction and quote answers in each state. *)
Record Script : Type := {
  s_balanceOf : nat -> address -> address -> Z;
  s_allowance : nat -> address -> address -> address -> Z;
  s_rejects : nat -> address -> Tx -> bool;
  s_quote : nat -> QuoteRequest -> option QuoteResponse;
}.

Definition scripted (s : Script) : Chain nat :=
  {| balanceOf := s_balanceOf s;
     allowance := s_allowance s;
     sendTransaction := fun n from tx => if s_rejects s n from tx then None else Some (S n);
     zrx_quote := s_quote s |}.

Definition a_quote : QuoteResponse :=
  {| q_data := "0xd9627aa4"; allowanceTarget := "0xDef1C0ded9bec7F1a1670819833240f027b25EfF" |}.

(** 3crv: the strategy holds 1000; the swapper holds no usdc until the
    liquidity is removed (the second transaction), then 990; no allowance. *)
Definition three_pool_script : Script :=
  {| s_balanceOf := fun n token _ =>
       if String.eqb token ThreePoolCrvMulticall.usdc
       then (if (n <? 2)%nat then 0 else 990)
       else 1000;
     s_allowance := fun _ _ _ _ => 0;
     s_rejects := fun _ _ _ => false;
     s_quote := fun _ _ => Some a_quote |}.

Definition three_pool_trade : ExtendedEnabledTrade :=
  {| _strategy := ThreePoolCrvMulticall.strategy;
     _tokenIn := JS.Str ThreePoolCrvMulticall.threeCrv;
     _tokenOut := ThreePoolCrvMulticall.yveCrv |}.

(** crv and cvx: the strategy holds [crvBalance] and [cvxBalance]; the
    swapper has granted [crvAllowance] of crv and [cvxAllowance] of cvx. *)
Definition curve_spell_script (crvBalance cvxBalance crvAllowance cvxAllowance : Z)
  : Script :=
  {| s_balanceOf := fun _ token _ =>
       if String.eqb token CurveSpellEthMulticall.crv then crvBalance
       else if String.eqb token CurveSpellEthMulticall.cvx then cvxBalance
       else 50;
     s_allowance := fun _ token _ _ =>
       if String.eqb token CurveSpellEthMulticall.crv then crvAllowance
       else if String.eqb token CurveSpellEthMulticall.cvx then cvxAllowance
       else 0;
     s_rejects := fun _ _ _ => false;
     s_quote := fun _ _ => Some a_quote |}.

(** ** The solvers on scripted chains *)

Definition three_pool_run : world * (thrown + TradeSetup) :=
  @run nat _
    (@ThreePoolCrvMulticall.solve nat (scripted three_pool_script) three_pool_trade) 0%nat.

Definition curve_spell_run (crvBalance cvxBalance crvAllowance cvxAllowance : Z)
  : world * (thrown + TradeSetup) :=
  @run nat _
    (@CurveSpellEthMulticall.solve nat
       (scripted (curve_spell_script crvBalance cvxBalance crvAllowance cvxAllowance))
       crv_cvx_trade) 0%nat.

(** usdc: as [three_pool_script], the liquidity removed leaving 11 and the
    swapper having granted 9. *)
Definition numerals_script : Script :=
  {| s_balanceOf := fun n token _ =>
       if String.eqb token ThreePoolCrvMulticall.usdc
       then (if (n <? 2)%nat then 0 else 11)
       else 1000;
     s_allowance := fun _ _ _ _ => 9;
     s_rejects := fun _ _ _ => false;
     s_quote := fun _ _ => Some a_quote |}.

(** ** The harvest worker *)

(** The configuration found for [strategy] lists [token] as being dumped. *)
Definition dumps (harvestConfigurations : list Harvest.HarvestConfiguration)
    (token strategy : string) : bool :=
  match Harvest.find_configuration harvestConfigurations strategy with
  | Some hc => existsb (String.eqb token) (Harvest.tokensBeingDumped hc)
  | None => false
  end.

(** The [lastWorkAt] of the strategies that dump [token], in order. *)
Definition dump_times (harvestConfigurations : list Harvest.HarvestConfiguration)
    (token : string) (lastWorksAt : list (string * Z)) : list Z :=
  map snd (List.filter (fun l => dumps harvestConfigurations token (fst l)) lastWorksAt).

(** The maximum of a list of timestamps, if it has one. *)
Definition latest (l : list Z) : option Z :=
  match l with
  | [] => None
  | x :: r => Some (fold_left Z.max r x)
  end.

(** No store has put a value below the one it found. *)
Definition never_decreased (st : Harvest.State) : Prop :=
  forall token old new, In (token, Some old, new) (Harvest.stores st) -> old <= new.

(** A scripted job, as a test double would provide it: the strategies and
    their [lastWorkAt] (a rejected read is [None]), every strategy workable,
    a fixed gas estimate, every [work] accepted, and a clock that starts at
    [start] and advances one second per interaction. *)
Definition scripted_job (strategies : list string) (lastWorkAt : string -> option Z)
    (gas start : Z) : Harvest.Env :=
  {| Harvest.job_strategies := fun _ => Some strategies;
     Harvest.job_lastWorkAt := fun _ strategy => lastWorkAt strategy;
     Harvest.job_workable := fun _ _ => Some true;
     Harvest.job_estimateGas_work := fun _ _ => Some gas;
     Harvest.job_work := fun _ _ _ => Some "0x5eb1";
     Harvest.moment_unix := fun t => start + Z.of_nat t |}.

Definition strategy_a : string := "0xAAaa".
Definition strategy_b : string := "0xBBbb".
Definition reward : string := "0x7e57".

(** Two strategies that dump the same reward token. *)
Definition two_configurations : list Harvest.HarvestConfiguration :=
  [ {| Harvest.address := "0xaaAA"; Harvest.tokensBeingDumped := [reward] |};
    {| Harvest.address := "0xbbBB"; Harvest.tokensBeingDumped := [reward] |} ].

(** [lastWorkAt] 100 for the first strategy and 200 for the second. *)
Definition two_strategies_job : Harvest.Env :=
  scripted_job [strategy_a; strategy_b]
    (fun s => if String.eqb s strategy_a then Some 100 else Some 200) 21001 1000.

(** The same job, the read of the second [lastWorkAt] being rejected. *)
Definition rejecting_job : Harvest.Env :=
  scripted_job [strategy_a; strategy_b]
    (fun s => if String.eqb s strategy_a then Some 100 else None) 21001 1000.

(** The ways the body of the loop can throw for [strategy] in state [st]:
    the [workable] call is rejected; the strategy is workable and has no
    configuration (reading [tokensBeingDumped] of [undefined]); it is not
    on cooldown and the gas estimate is rejected; or the [work] call is. *)
Inductive throws (env : Harvest.Env) (cfgs : list Harvest.HarvestConfiguration)
    (st : Harvest.State) (strategy : string) : Prop :=
| throws_workable :
    Harvest.job_workable env (Harvest.now st) strategy = None ->
    throws env cfgs st strategy
| throws_undefined :
    Harvest.job_workable env (Harvest.now st) strategy = Some true ->
    Harvest.find_configuration cfgs strategy = None ->
    throws env cfgs st strategy
| throws_estimateGas hc st1 :
    Harvest.job_workable env (Harvest.now st) strategy = Some true ->
    Harvest.find_configuration cfgs strategy = Some hc ->
    fold_left (Harvest.cooldown_round env) (Harvest.tokensBeingDumped hc)
      (Harvest.tick st, false) = (st1, false) ->
    Harvest.job_estimateGas_work env (Harvest.now st1) strategy = None ->
    throws env cfgs st strategy
| throws_work hc st1 gasLimit :
    Harvest.job_workable env (Harvest.now st) strategy = Some true ->
    Harvest.find_configuration cfgs strategy = Some hc ->
    fold_left (Harvest.cooldown_round env) (Harvest.tokensBeingDumped hc)
      (Harvest.tick st, false) = (st1, false) ->
    Harvest.job_estimateGas_work env (Harvest.now st1) strategy = Some gasLimit ->
    Harvest.job_work env (S (Harvest.now st1)) strategy
      (JS.div (JS.mul gasLimit 110) 100) = None ->
    throws env cfgs st strategy.

(** The local clock never goes back. *)
Definition clock_monotone (env : Harvest.Env) : Prop :=
  forall i j : nat, (i <= j)%nat -> Harvest.moment_unix env i <= Harvest.moment_unix env j.

(** What a round of the map construction does to an entry. *)
Definition bump (o : option Z) (timestamp : Z) : option Z :=
  match o with
  | None => Some timestamp
  | Some last => Some (if (timestamp >? last)%Z then timestamp else last)
  end.

(** Two states with the same accumulators and [work] calls. *)
Record same_lists (st st' : Harvest.State) : Prop := {
  same_worked : Harvest.worked st' = Harvest.worked st;
  same_notWorkable : Harvest.notWorkable st' = Harvest.notWorkable st;
  same_onLiquidityCooldown :
    Harvest.onLiquidityCooldown st' = Harvest.onLiquidityCooldown st;
  same_errorWhileWorked : Harvest.errorWhileWorked st' = Harvest.errorWhileWorked st;
  same_workCalls : Harvest.workCalls st' = Harvest.workCalls st;
}.

(** ** Symbolic execution of a solve *)

Ltac unfold_solve :=
  unfold run, ThreePoolCrvMulticall.solve, CurveSpellEthMulticall.solve,
    bind, view, send, quote, when, ret, throw, record, mergeTransactions.

Ltac exec_step :=
  match goal with
  | |- context [match sendTransaction ?c ?f ?t with _ => _ end] =>
      destruct (sendTransaction c f t) eqn:?
  | |- context [match zrx_quote ?c ?r with _ => _ end] =>
      destruct (zrx_quote c r) eqn:?
  | |- context [if JS.bn_lt_operator ?a ?b then _ else _] =>
      destruct (JS.bn_lt_operator a b) eqn:?
  end.

Ltac exec := repeat (cbn [w_chain w_trace fst snd app nth_error]; try exec_step).

(** ** Notions used in the further properties *)

(** A call of a token's [transfer]. *)
Definition is_transfer (tx : Tx) : Prop :=
  exists recipient amount, data tx = transfer recipient amount.

(** Who may sign what in a solve of a solver whose strategy and swapper are
    [strategy] and [swapper]: the strategy signs only transfers to the
    swapper; every other transaction is signed by the swapper and is no
    transfer. *)
Definition signed_as_expected (strategy swapper : address) (e : event) : Prop :=
  match e with
  | Sent from tx =>
      (from = strategy
       /\ exists token amount, tx = call token (transfer swapper amount))
      \/ (from = swapper /\ ~ is_transfer tx)
  | Quoted _ => True
  end.

(** Every approval among [txs] is for [MaxUint256]. *)
Definition unlimited_approvals (txs : list Tx) : Prop :=
  forall tx spender amount,
    In tx txs -> data tx = approve spender amount -> amount = JS.MaxUint256.

(** The four lists of the worker, put end to end. *)
Definition outcomes (st : Harvest.State) : list string :=
  (Harvest.worked st ++ Harvest.notWorkable st
   ++ Harvest.onLiquidityCooldown st ++ Harvest.errorWhileWorked st)%list.

(** The cooldown round for the [i]-th token of [tokens], the rounds having
    started in [st], finds the token within the cooldown window. *)
Definition within_cooldown (env : Harvest.Env) (st : Harvest.State)
    (tokens : list string) (i : nat) : Prop :=
  exists token last,
    nth_error tokens i = Some token
    /\ Harvest.lastTimeRewardWasDumped st !! token = Some last
    /\ Harvest.moment_unix env (Harvest.now st + i) - Harvest.REWARD_DUMPED_COOLDOWN
       <= last.

(** Every [work] call carries 110% of a gas estimate the job gave for the
    strategy. *)
Definition calls_from_estimates (env : Harvest.Env) (st : Harvest.State) : Prop :=
  forall strategy limit,
    In (strategy, limit) (Harvest.workCalls st) ->
    exists t gasLimit,
      Harvest.job_estimateGas_work env t strategy = Some gasLimit
      /\ limit = Z.quot (gasLimit * 110) 100.

(** As [three_pool_script], the third transaction (the swap) being
    rejected. *)
Definition rejected_swap_script : Script :=
  {| s_balanceOf := s_balanceOf three_pool_script;
     s_allowance := fun _ _ _ _ => JS.MaxUint256;
     s_rejects := fun n _ _ => (n =? 2)%nat;
     s_quote := s_quote three_pool_script |}.

(** As [two_strategies_job], the second strategy not being workable. *)
Definition idle_second_job : Harvest.Env :=
  {| Harvest.job_strategies := Harvest.job_strategies two_strategies_job;
     Harvest.job_lastWorkAt := Harvest.job_lastWorkAt two_strategies_job;
     Harvest.job_workable := fun _ s => Some (String.eqb s strategy_a);
     Harvest.job_estimateGas_work := Harvest.job_estimateGas_work two_strategies_job;
     Harvest.job_work := Harvest.job_work two_strategies_job;
     Harvest.moment_unix := Harvest.moment_unix two_strategies_job |}.

(** A job with one strategy, last worked at 1000, on a machine whose clock
    is set back while the run is waiting for the [work] transaction: it
    reads 1200 up to the submission and 900 from then on.  The interactions
    of the run are: the strategy list (0), [lastWorkAt] (1), [workable] (2),
    the clock of the cooldown test (3), the gas estimate (4), [work] (5),
    the clock stored for the reward token (6). *)
Definition set_back_job : Harvest.Env :=
  {| Harvest.job_strategies := fun _ => Some [strategy_a];
     Harvest.job_lastWorkAt := fun _ _ => Some 1000;
     Harvest.job_workable := fun _ _ => Some true;
     Harvest.job_estimateGas_work := fun _ _ => Some 21001;
     Harvest.job_work := fun _ _ _ => Some "0x5eb1";
     Harvest.moment_unix := fun t => if (t <? 6)%nat then 1200 else 900 |}.

(** The state of the scripted job when its loop starts, and after its first
    strategy. *)
Definition prepared : Harvest.State :=
  Harvest.store reward 200 (Harvest.store reward 100 (Harvest.initial 3)).

Definition after_first : Harvest.State :=
  Harvest.work_strategy two_strategies_job two_configurations prepared strategy_a.

Ltac signed :=
  repeat (first [apply List.Forall_nil | apply List.Forall_cons]);
  cbn [signed_as_expected];
  first [ exact I
        | left; split; [reflexivity | do 2 eexists; reflexivity]
        | right; split; [reflexivity | intros (r & a & E); discriminate E] ].

(* ===================================================================== *)
(** * Properties of [match] *)
(* ===================================================================== *)

Lemma prefix_app (p s : string) :
  String.prefix p s = true <-> exists b, s = p ++ b.
Proof.
  revert s. induction p as [|c p IH]; intros s; simpl.
  - split; [intros _; exists s; reflexivity | intros _; destruct s; reflexivity].
  - destruct s as [|d s]; simpl.
    + split; [discriminate | intros [b Hb]; discriminate].
    + destruct (Ascii.ascii_dec c d) as [->|Hne].
      * rewrite IH. split; intros [b Hb]; exists b.
        -- now rewrite Hb.
        -- now injection Hb.
      * split; [discriminate | intros [b Hb]; injection Hb; intros; congruence].
Qed.

Lemma occurs_app (p s : string) :
  JS.occurs p s = true <-> exists a b, s = a ++ p ++ b.
Proof.
  induction s as [|c s IH].
  - cbn [JS.occurs]. rewrite orb_false_r, prefix_app. split.
    + intros [b Hb]. exists "", b. exact Hb.
    + intros [a [b Hab]]. destruct a; [exists b; exact Hab | discriminate].
  - cbn [JS.occurs]. rewrite orb_true_iff, prefix_app, IH. split.
    + intros [[b Hb] | [a [b Hab]]].
      * exists "", b. exact Hb.
      * exists (String c a), b. simpl. now rewrite Hab.
    + intros [a [b Hab]]. destruct a as [|d a].
      * left. exists b. exact Hab.
      * right. exists a, b. simpl in Hab. now injection Hab.
Qed.

Lemma includes_Includes (v : JS.value) (x : string) :
  JS.includes v x = true <-> Includes v x.
Proof.
  destruct v as [s|l]; simpl.
  - apply occurs_app.
  - rewrite existsb_exists. split.
    + intros [y [Hy Heq]]. apply String.eqb_eq in Heq. subst. exact Hy.
    + intros Hin. exists x. split; [exact Hin | apply String.eqb_refl].
Qed.

(** C1 (as amended).  [ThreePoolCrvMulticall.match] is true exactly when
    the strategy is the solver's, [_tokenIn] compares equal ([==]) to 3Crv
    and [_tokenOut] is yveCRV: for a trade whose [_tokenIn] is a string,
    exactly when its triple is the solver's.  [CurveSpellEthMulticall.match]
    is true exactly when the strategy is the solver's, [_tokenIn] includes
    both CRV and CVX, and [_tokenOut] is equal to crvSpellEth. *)
Theorem match_characterised :
  (forall s tin out,
      ThreePoolCrvMulticall.match_
        {| _strategy := s; _tokenIn := JS.Str tin; _tokenOut := out |} = true
      <-> (s, tin, out) = (ThreePoolCrvMulticall.strategy,
                           ThreePoolCrvMulticall.threeCrv,
                           ThreePoolCrvMulticall.yveCrv))
  /\ (forall t,
      ThreePoolCrvMulticall.match_ t = true
      <-> _strategy t = ThreePoolCrvMulticall.strategy
          /\ JS.toPrimitive (_tokenIn t) = ThreePoolCrvMulticall.threeCrv
          /\ _tokenOut t = ThreePoolCrvMulticall.yveCrv)
  /\ (forall t,
      CurveSpellEthMulticall.match_ t = true
      <-> _strategy t = CurveSpellEthMulticall.strategy
          /\ Includes (_tokenIn t) CurveSpellEthMulticall.crv
          /\ Includes (_tokenIn t) CurveSpellEthMulticall.cvx
          /\ _tokenOut t = CurveSpellEthMulticall.crvSpellEth).
Proof.
  assert (H3 : forall t,
      ThreePoolCrvMulticall.match_ t = true
      <-> _strategy t = ThreePoolCrvMulticall.strategy
          /\ JS.toPrimitive (_tokenIn t) = ThreePoolCrvMulticall.threeCrv
          /\ _tokenOut t = ThreePoolCrvMulticall.yveCrv).
  { intros t. unfold ThreePoolCrvMulticall.match_, JS.loose_eq.
    rewrite !andb_true_iff, !String.eqb_eq. tauto. }
  split; [|split].
  - intros s tin out. rewrite H3. simpl. split.
    + intros (-> & -> & ->). reflexivity.
    + intros [= -> -> ->]. auto.
  - exact H3.
  - intros t. unfold CurveSpellEthMulticall.match_.
    rewrite !andb_true_iff, !String.eqb_eq, !includes_Includes. tauto.
Qed.

(** C1 (as stated) fails for the two-source solver: it accepts two trades
    whose [_tokenIn] differ (as arrays, and as strings), so no single triple
    (with a set of accepted tokenOut) describes it. *)
Lemma curve_spell_match_is_no_triple :
  CurveSpellEthMulticall.match_ crv_cvx_trade = true
  /\ CurveSpellEthMulticall.match_ cvx_crv_trade = true
  /\ _tokenIn crv_cvx_trade <> _tokenIn cvx_crv_trade
  /\ CurveSpellEthMulticall.match_ crv_cvx_string_trade = true
  /\ CurveSpellEthMulticall.match_ cvx_crv_string_trade = true
  /\ _tokenIn crv_cvx_string_trade <> _tokenIn cvx_crv_string_trade
  /\ ~ matches_one_triple CurveSpellEthMulticall.match_.
Proof.
  assert (H1 : CurveSpellEthMulticall.match_ crv_cvx_trade = true) by reflexivity.
  assert (H2 : CurveSpellEthMulticall.match_ cvx_crv_trade = true) by reflexivity.
  assert (Hne : _tokenIn crv_cvx_trade <> _tokenIn cvx_crv_trade) by discriminate.
  repeat split; try assumption; try reflexivity; try discriminate.
  intros (s & tin & outs & Hm).
  apply Hm in H1. apply Hm in H2.
  destruct H1 as (_ & E1 & _), H2 as (_ & E2 & _). congruence.
Qed.

Lemma length_app (a b : string) :
  String.length (a ++ b) = (String.length a + String.length b)%nat.
Proof.
  induction a as [|c a IH]; [reflexivity|].
  change (S (String.length (a ++ b)) = S (String.length a + String.length b)).
  now rewrite IH.
Qed.

Lemma app_empty_r (a : string) : a ++ "" = a.
Proof.
  induction a as [|c a IH]; [reflexivity|].
  change (String c (a ++ "") = String c a). now rewrite IH.
Qed.

Lemma short_superstring (x s : string) :
  Includes (JS.Str s) x -> (String.length s <= String.length x)%nat -> s = x.
Proof.
  intros (a & b & ->) Hlen.
  rewrite !length_app in Hlen.
  destruct a as [|c a]; [|simpl in Hlen; lia].
  destruct b as [|c b]; [|simpl in Hlen; lia].
  change (x ++ "" = x). apply app_empty_r.
Qed.

(** A trade whose [_tokenIn] is a single address is never matched by the
    two-source solver. *)
Lemma curve_spell_match_rejects_an_address (s tin out : string) :
  (String.length tin <= 42)%nat ->
  CurveSpellEthMulticall.match_
    {| _strategy := s; _tokenIn := JS.Str tin; _tokenOut := out |} = false.
Proof.
  intros Hlen. unfold CurveSpellEthMulticall.match_. simpl.
  destruct (JS.occurs CurveSpellEthMulticall.crv tin) eqn:Hcrv;
    [|now rewrite andb_false_r].
  destruct (JS.occurs CurveSpellEthMulticall.cvx tin) eqn:Hcvx;
    [|now rewrite !andb_false_r].
  exfalso.
  apply (includes_Includes (JS.Str tin)) in Hcrv, Hcvx.
  apply short_superstring in Hcrv; [|exact Hlen].
  apply short_superstring in Hcvx; [|exact Hlen].
  subst tin. discriminate Hcvx.
Qed.

(* ===================================================================== *)
(** * Properties of [solve] *)
(* ===================================================================== *)

Section SolveProperties.
Context {chain : Type} `{Chain chain}.

(** C4.  In [ThreePoolCrvMulticall.solve], once the 3crv transfer and the
    removal of liquidity have gone through, the amount quoted for the swap
    leg (the third event of the solve) is the usdc balance delta minus 1
    when the total usdc balance equals the delta, which is exactly when
    the balance before was zero, and the delta itself otherwise. *)
Theorem three_pool_intermediate_amount (c c1 c2 : chain) (trade : ExtendedEnabledTrade) :
  let amount := balanceOf c ThreePoolCrvMulticall.threeCrv (_strategy trade) in
  sendTransaction c ThreePoolCrvMulticall.strategy
    (call ThreePoolCrvMulticall.threeCrv
       (transfer ThreePoolCrvMulticall.multicallSwapper amount)) = Some c1 ->
  sendTransaction c1 ThreePoolCrvMulticall.multicallSwapper
    (call ThreePoolCrvMulticall.crv3Pool (remove_liquidity_one_coin amount 1 0)) = Some c2 ->
  let pre := balanceOf c1 ThreePoolCrvMulticall.usdc ThreePoolCrvMulticall.multicallSwapper in
  let total := balanceOf c2 ThreePoolCrvMulticall.usdc ThreePoolCrvMulticall.multicallSwapper in
  let delta := total - pre in
  (total = delta <-> pre = 0)
  /\ exists sold,
      nth_error (w_trace (fst (run (ThreePoolCrvMulticall.solve trade) c))) 2
      = Some (Quoted (ThreePoolCrvMulticall.quoteRequest sold))
      /\ (total = delta -> sold = delta - 1)
      /\ (total <> delta -> sold = delta).
Proof.
  intros amount H1 H2 pre total delta. split; [unfold delta; lia|].
  exists (ThreePoolCrvMulticall.dust pre total). split.
  - unfold_solve. cbn [w_chain w_trace]. fold amount. rewrite H1.
    cbn [w_chain w_trace]. rewrite H2. cbn [w_chain w_trace]. fold pre total.
    exec; reflexivity.
  - unfold ThreePoolCrvMulticall.dust, JS.eq, JS.sub. fold delta.
    destruct (Z.eqb_spec total delta); split; intros; congruence.
Qed.

(** C7.  When the strategy holds neither CRV nor CVX,
    [CurveSpellEthMulticall.solve] throws [':shrug:'] with an empty trace:
    nothing has been transferred, quoted or swapped, and the chain is as it
    was. *)
Theorem curve_spell_throws_without_balance (c : chain) (trade : ExtendedEnabledTrade) :
  balanceOf c CurveSpellEthMulticall.crv CurveSpellEthMulticall.strategy = 0 ->
  balanceOf c CurveSpellEthMulticall.cvx CurveSpellEthMulticall.strategy = 0 ->
  run (CurveSpellEthMulticall.solve trade) c
  = ({| w_chain := c; w_trace := [] |}, inl (ThrownString ":shrug:")).
Proof.
  intros Hcrv Hcvx. unfold_solve. cbn [w_chain w_trace].
  rewrite Hcrv, Hcvx. reflexivity.
Qed.

(** C3 (as amended).  Every solve that returns executed in simulation the
    funding transfers signed by the strategy followed by the populated
    calls, in the same order, with the same targets and calldata; except
    that [ThreePoolCrvMulticall] simulates the final vault withdrawal
    towards the swapper and populates it towards the strategy.  Each solver
    is taken alone. *)
Theorem populated_calls_and_simulated_calls :
  (forall (c : chain) (trade : ExtendedEnabledTrade) (w : world) (setup : TradeSetup),
      run (CurveSpellEthMulticall.solve trade) c = (w, inr setup) ->
      sent (w_trace w)
      = [call CurveSpellEthMulticall.crv
           (transfer CurveSpellEthMulticall.multicallSwapper
              (balanceOf c CurveSpellEthMulticall.crv CurveSpellEthMulticall.strategy));
         call CurveSpellEthMulticall.cvx
           (transfer CurveSpellEthMulticall.multicallSwapper
              (balanceOf c CurveSpellEthMulticall.cvx CurveSpellEthMulticall.strategy))]
        ++ e_data (transaction setup))%list
  /\ (forall (c : chain) (trade : ExtendedEnabledTrade) (w : world) (setup : TradeSetup),
      run (ThreePoolCrvMulticall.solve trade) c = (w, inr setup) ->
      exists calls,
        sent (w_trace w)
        = [call ThreePoolCrvMulticall.threeCrv
             (transfer ThreePoolCrvMulticall.multicallSwapper
                (balanceOf c ThreePoolCrvMulticall.threeCrv (_strategy trade)))]
          ++ calls
          ++ [call ThreePoolCrvMulticall.yvBoost
                (vault_withdraw JS.MaxUint256 ThreePoolCrvMulticall.multicallSwapper 0)]
        /\ e_data (transaction setup)
           = calls
             ++ [call ThreePoolCrvMulticall.yvBoost
                   (vault_withdraw JS.MaxUint256 ThreePoolCrvMulticall.strategy 0)])%list.
Proof.
  split.
  - intros c trade w setup Hcs. revert Hcs. unfold_solve. cbn [w_chain w_trace].
    destruct (JS.lte _ 0 && JS.lte _ 0); [discriminate|].
    exec; try discriminate; intros [= <- <-]; reflexivity.
  - intros c trade w setup Htp. revert Htp. unfold_solve.
    exec; try discriminate; intros [= <- <-];
      cbn [sent flat_map app w_trace transaction e_data].
    + eexists (_ :: _ :: _ :: nil). split; reflexivity.
    + eexists (_ :: _ :: nil). split; reflexivity.
Qed.

(** C10.  When exactly one of the CRV and CVX balances of the strategy is
    zero and the other is positive, [CurveSpellEthMulticall.solve] throws
    nothing of its own and starts with the transfer of the CRV balance;
    and, provided no external call fails, it returns, having transferred
    both balances (the zero one included) and requested a quote for each
    (one with [sellAmount] zero), with both swap legs in the payload and
    both balances in the trade descriptors. *)
Theorem curve_spell_one_empty_source (c : chain) (trade : ExtendedEnabledTrade) :
  let crvBalance := balanceOf c CurveSpellEthMulticall.crv CurveSpellEthMulticall.strategy in
  let cvxBalance := balanceOf c CurveSpellEthMulticall.cvx CurveSpellEthMulticall.strategy in
  (crvBalance = 0 /\ 0 < cvxBalance) \/ (0 < crvBalance /\ cvxBalance = 0) ->
  let r := run (CurveSpellEthMulticall.solve trade) c in
  (forall s, snd r <> inl (ThrownString s))
  /\ nth_error (w_trace (fst r)) 0
     = Some (Sent CurveSpellEthMulticall.strategy
               (call CurveSpellEthMulticall.crv
                  (transfer CurveSpellEthMulticall.multicallSwapper crvBalance)))
  /\ ((forall e, snd r <> inl (CallFailed e)) ->
      exists w setup qCrv qCvx,
        r = (w, inr setup)
        /\ In (Sent CurveSpellEthMulticall.strategy
                 (call CurveSpellEthMulticall.crv
                    (transfer CurveSpellEthMulticall.multicallSwapper crvBalance)))
              (w_trace w)
        /\ In (Sent CurveSpellEthMulticall.strategy
                 (call CurveSpellEthMulticall.cvx
                    (transfer CurveSpellEthMulticall.multicallSwapper cvxBalance)))
              (w_trace w)
        /\ In (Quoted (CurveSpellEthMulticall.quoteRequest
                         CurveSpellEthMulticall.crv crvBalance)) (w_trace w)
        /\ In (Quoted (CurveSpellEthMulticall.quoteRequest
                         CurveSpellEthMulticall.cvx cvxBalance)) (w_trace w)
        /\ In (call CurveSpellEthMulticall.zrxContract (quoted (q_data qCrv)))
              (e_data (transaction setup))
        /\ In (call CurveSpellEthMulticall.zrxContract (quoted (q_data qCvx)))
              (e_data (transaction setup))
        /\ (exists c1, zrx_quote c1 (CurveSpellEthMulticall.quoteRequest
                                       CurveSpellEthMulticall.crv crvBalance) = Some qCrv)
        /\ (exists c2, zrx_quote c2 (CurveSpellEthMulticall.quoteRequest
                                       CurveSpellEthMulticall.cvx cvxBalance) = Some qCvx)
        /\ e_trades (transaction setup)
           = [ {| d_strategy := CurveSpellEthMulticall.strategy;
                  d_tokenIn := JS.Str CurveSpellEthMulticall.crv;
                  d_tokenOut := _tokenOut trade;
                  d_amount := crvBalance;
                  d_minAmountOut := 0 |};
               {| d_strategy := CurveSpellEthMulticall.strategy;
                  d_tokenIn := JS.Str CurveSpellEthMulticall.cvx;
                  d_tokenOut := _tokenOut trade;
                  d_amount := cvxBalance;
                  d_minAmountOut := 0 |} ]).
Proof.
  intros crvBalance cvxBalance Hbal r.
  assert (Hguard : JS.lte crvBalance 0 && JS.lte cvxBalance 0 = false).
  { unfold JS.lte. apply andb_false_iff.
    destruct Hbal as [[_ Hpos] | [Hpos _]]; [right | left]; apply Z.leb_gt; exact Hpos. }
  subst r. unfold_solve. cbn [w_chain w_trace].
  fold crvBalance cvxBalance. rewrite Hguard.
  split; [|split].
  - intros s. exec; discriminate.
  - exec; reflexivity.
  - exec; intros Hok; try (exfalso; eapply Hok; reflexivity);
      match goal with
      | Hq1 : zrx_quote _ (CurveSpellEthMulticall.quoteRequest
                             CurveSpellEthMulticall.crv _) = Some ?q1,
        Hq2 : zrx_quote _ (CurveSpellEthMulticall.quoteRequest
                             CurveSpellEthMulticall.cvx _) = Some ?q2 |- _ =>
          do 2 eexists; exists q1, q2
      end;
      (split; [reflexivity|]);
      cbn [w_trace transaction e_data e_trades app];
      repeat split;
      first [ eexists; eassumption | simpl; tauto ].
Qed.

End SolveProperties.

(** C4 on the scripted chain: no usdc before, 990 after, 989 quoted. *)
Lemma three_pool_intermediate_amount_witness :
  exists sold,
    nth_error (w_trace (fst three_pool_run)) 2
    = Some (Quoted (ThreePoolCrvMulticall.quoteRequest sold))
    /\ sold = 989.
Proof.
  destruct (@three_pool_intermediate_amount nat (scripted three_pool_script)
              0%nat 1%nat 2%nat three_pool_trade)
    as [_ (sold & Hq & Heq & _)]; [reflexivity | reflexivity |].
  exists sold. split; [exact Hq | apply Heq; reflexivity].
Defined.

(** C7 on the scripted chain: both balances zero. *)
Lemma curve_spell_throws_without_balance_witness :
  curve_spell_run 0 0 0 0
  = ({| w_chain := 0%nat; w_trace := [] |}, inl (ThrownString ":shrug:")).
Proof.
  unfold curve_spell_run.
  apply (@curve_spell_throws_without_balance nat (scripted (curve_spell_script 0 0 0 0)));
    reflexivity.
Defined.

(** C3 on the scripted chain: both solves return. *)
Lemma populated_calls_and_simulated_calls_witness :
  exists (w w' : @world nat) (setup setup' : TradeSetup),
    (sent (w_trace w)
     = [call CurveSpellEthMulticall.crv
          (transfer CurveSpellEthMulticall.multicallSwapper 1000);
        call CurveSpellEthMulticall.cvx
          (transfer CurveSpellEthMulticall.multicallSwapper 1000)]
       ++ e_data (transaction setup))%list
    /\ three_pool_run = (w', inr setup')
    /\ last (e_data (transaction setup'))
       = Some (call ThreePoolCrvMulticall.yvBoost
                 (vault_withdraw JS.MaxUint256 ThreePoolCrvMulticall.strategy 0)).
Proof.
  destruct (@run nat _ (@CurveSpellEthMulticall.solve nat (scripted three_pool_script)
                          crv_cvx_trade) 0%nat) as [w [e|setup]] eqn:Hcs;
    [vm_compute in Hcs; discriminate Hcs|].
  destruct three_pool_run as [w' [e|setup']] eqn:Htp;
    [vm_compute in Htp; discriminate Htp|].
  destruct (@populated_calls_and_simulated_calls nat (scripted three_pool_script))
    as [Hcurve Hthree].
  pose proof (Hcurve 0%nat crv_cvx_trade w setup Hcs) as E1.
  destruct (Hthree 0%nat three_pool_trade w' setup' Htp) as (calls & E2 & E3).
  exists w, w', setup, setup'. split; [|split; [reflexivity|]].
  - exact E1.
  - rewrite E3. apply last_snoc.
Defined.

(** C10 on the scripted chain: no CRV, 7 CVX. *)
Lemma curve_spell_one_empty_source_witness :
  exists w setup,
    curve_spell_run 0 7 0 0 = (w, inr setup)
    /\ In (Sent CurveSpellEthMulticall.strategy
             (call CurveSpellEthMulticall.crv
                (transfer CurveSpellEthMulticall.multicallSwapper 0)))
          (w_trace w)
    /\ In (Quoted (CurveSpellEthMulticall.quoteRequest CurveSpellEthMulticall.crv 0))
          (w_trace w)
    /\ map d_amount (e_trades (transaction setup)) = [0; 7].
Proof.
  destruct (@curve_spell_one_empty_source nat (scripted (curve_spell_script 0 7 0 0))
              0%nat crv_cvx_trade) as (_ & _ & Hret).
  { left. split; [reflexivity | reflexivity]. }
  destruct Hret as (w & setup & qCrv & qCvx & Hrun & Ht1 & _ & Hq1 & _ & _ & _ & _ & _ & Htr).
  { intros e. vm_compute. discriminate. }
  exists w, setup. split; [exact Hrun|]. split; [exact Ht1|]. split; [exact Hq1|].
  rewrite Htr. reflexivity.
Defined.

(** C3 (as stated) fails for [ThreePoolCrvMulticall]: on the scripted chain
    the payload is neither the list of simulated transactions nor the list
    of those the swapper sent; the last simulated call withdraws to the
    swapper, the last populated call to the strategy. *)
Lemma three_pool_payload_differs_from_simulation :
  exists w setup,
    three_pool_run = (w, inr setup)
    /\ e_data (transaction setup) <> sent (w_trace w)
    /\ e_data (transaction setup)
       <> sent_by ThreePoolCrvMulticall.multicallSwapper (w_trace w)
    /\ last (sent (w_trace w))
       = Some (call ThreePoolCrvMulticall.yvBoost
                 (vault_withdraw JS.MaxUint256 ThreePoolCrvMulticall.multicallSwapper 0))
    /\ last (e_data (transaction setup))
       = Some (call ThreePoolCrvMulticall.yvBoost
                 (vault_withdraw JS.MaxUint256 ThreePoolCrvMulticall.strategy 0)).
Proof.
  do 2 eexists. split; [vm_compute; reflexivity|].
  repeat split; try (vm_compute; discriminate); vm_compute; reflexivity.
Qed.

(** C2 at the failing input.  The strategy holds 4 CRV and 3 CVX; the
    swapper has granted 5 CRV and no CVX to the allowance target.  The CVX
    leg sells 3 with a CVX allowance of 0, yet no CVX approval is executed
    in simulation or put in the payload: the CVX decision reads the CRV
    allowance. *)
Theorem cvx_approval_reads_crv_allowance :
  exists w setup,
    curve_spell_run 4 3 5 0 = (w, inr setup)
    /\ In (Quoted (CurveSpellEthMulticall.quoteRequest CurveSpellEthMulticall.cvx 3))
          (w_trace w)
    /\ (forall n, s_allowance (curve_spell_script 4 3 5 0) n CurveSpellEthMulticall.cvx
                    CurveSpellEthMulticall.multicallSwapper (allowanceTarget a_quote) = 0)
    /\ ~ In (call CurveSpellEthMulticall.cvx (approve (allowanceTarget a_quote) JS.MaxUint256))
            (sent (w_trace w))
    /\ ~ In (call CurveSpellEthMulticall.cvx (approve (allowanceTarget a_quote) JS.MaxUint256))
            (e_data (transaction setup)).
Proof.
  do 2 eexists. split; [vm_compute; reflexivity|].
  split; [vm_compute; tauto|].
  split; [intros n; reflexivity|].
  split; vm_compute; intros Hin;
    repeat (destruct Hin as [Hin|Hin]; [discriminate Hin|]); exact Hin.
Qed.

(** The approval test compares decimal numerals as strings: with an
    allowance of 9 and 10 to sell, [ThreePoolCrvMulticall.solve] does not
    approve. *)
Lemma three_pool_approval_compares_numerals :
  JS.bn_lt_operator 9 10 = false
  /\ exists w setup,
    @run nat _ (@ThreePoolCrvMulticall.solve nat (scripted numerals_script) three_pool_trade)
      0%nat
    = (w, inr setup)
    /\ In (Quoted (ThreePoolCrvMulticall.quoteRequest 10)) (w_trace w)
    /\ (forall n, s_allowance numerals_script n ThreePoolCrvMulticall.usdc
                    ThreePoolCrvMulticall.multicallSwapper (allowanceTarget a_quote) = 9)
    /\ ~ In (call ThreePoolCrvMulticall.usdc (approve (allowanceTarget a_quote) JS.MaxUint256))
            (e_data (transaction setup)).
Proof.
  split; [reflexivity|].
  do 2 eexists. split; [vm_compute; reflexivity|].
  split; [vm_compute; tauto|].
  split; [intros n; reflexivity|].
  vm_compute; intros Hin;
    repeat (destruct Hin as [Hin|Hin]; [discriminate Hin|]); exact Hin.
Qed.

(* ===================================================================== *)
(** * Properties of the harvest worker *)
(* ===================================================================== *)

Import Harvest.

Lemma bump_bump o ts : bump (bump o ts) ts = bump o ts.
Proof.
  destruct o as [v|]; simpl.
  - destruct (Z.gtb_spec ts v); simpl; f_equal.
    + rewrite Z.gtb_ltb, Z.ltb_irrefl. reflexivity.
    + destruct (Z.gtb_spec ts v); [lia | reflexivity].
  - rewrite Z.gtb_ltb, Z.ltb_irrefl. reflexivity.
Qed.

Lemma note_dump_lookup ts st token k :
  lastTimeRewardWasDumped (note_dump ts st token) !! k
  = if String.eqb k token then bump (lastTimeRewardWasDumped st !! k) ts
    else lastTimeRewardWasDumped st !! k.
Proof.
  unfold note_dump. destruct (String.eqb_spec k token) as [->|Hne].
  - destruct (lastTimeRewardWasDumped st !! token) as [v|] eqn:E; simpl.
    + destruct (ts >? v); simpl; [apply lookup_insert_eq | exact E].
    + apply lookup_insert_eq.
  - destruct (lastTimeRewardWasDumped st !! token) as [v|] eqn:E; simpl.
    + destruct (ts >? v); simpl; [apply lookup_insert_ne; congruence | reflexivity].
    + apply lookup_insert_ne; congruence.
Qed.

Lemma note_dumps_lookup ts tokens st k :
  lastTimeRewardWasDumped (fold_left (note_dump ts) tokens st) !! k
  = if existsb (String.eqb k) tokens then bump (lastTimeRewardWasDumped st !! k) ts
    else lastTimeRewardWasDumped st !! k.
Proof.
  revert st. induction tokens as [|token tokens IH]; intros st; simpl; [reflexivity|].
  rewrite IH, note_dump_lookup.
  destruct (String.eqb k token); simpl.
  - destruct (existsb _ tokens); [apply bump_bump | reflexivity].
  - reflexivity.
Qed.

Lemma fold_bump_Some l v :
  fold_left bump l (Some v) = Some (fold_left Z.max l v).
Proof.
  revert v. induction l as [|x l IH]; intros v; simpl; [reflexivity|].
  rewrite IH. do 2 f_equal. destruct (Z.gtb_spec x v); lia.
Qed.

Lemma fold_bump_None l : fold_left bump l None = latest l.
Proof. destruct l as [|x l]; simpl; [reflexivity | apply fold_bump_Some]. Qed.

Lemma fold_max_ge l v : v <= fold_left Z.max l v /\ Forall (fun x => x <= fold_left Z.max l v) l.
Proof.
  revert v. induction l as [|x l IH]; intros v; simpl; [split; [lia | constructor]|].
  destruct (IH (Z.max v x)) as [Hv Hall]. split; [lia|].
  constructor; [lia | exact Hall].
Qed.

Lemma fold_max_in l v : fold_left Z.max l v = v \/ In (fold_left Z.max l v) l.
Proof.
  revert v. induction l as [|x l IH]; intros v; simpl; [left; reflexivity|].
  destruct (IH (Z.max v x)) as [E|Hin]; [|right; right; exact Hin].
  rewrite E. destruct (Z.max_spec v x) as [[_ ->]|[_ ->]]; auto.
Qed.

Lemma latest_is_maximum l v :
  latest l = Some v <-> In v l /\ Forall (fun x => x <= v) l.
Proof.
  destruct l as [|x l]; simpl.
  - split; [discriminate | intros [[] _]].
  - split.
    + intros [= <-]. destruct (fold_max_ge l x) as [Hx Hall]. split.
      * destruct (fold_max_in l x) as [E|Hin]; [left; symmetry; exact E | right; exact Hin].
      * constructor; assumption.
    + intros [Hin Hall]. f_equal.
      destruct (fold_max_ge l x) as [Hx Hall'].
      assert (fold_left Z.max l x <= v).
      { destruct (fold_max_in l x) as [E|Hin'].
        - rewrite E. inversion Hall; assumption.
        - rewrite List.Forall_forall in Hall. apply Hall. right. exact Hin'. }
      assert (v <= fold_left Z.max l x).
      { destruct Hin as [<-|Hin]; [exact Hx|].
        rewrite List.Forall_forall in Hall'. apply Hall'. exact Hin. }
      lia.
Qed.

Lemma same_lists_refl st : same_lists st st.
Proof. split; reflexivity. Qed.

Lemma same_lists_trans st1 st2 st3 :
  same_lists st1 st2 -> same_lists st2 st3 -> same_lists st1 st3.
Proof. intros [] []. split; congruence. Qed.

Lemma same_lists_tick st : same_lists st (tick st).
Proof. split; reflexivity. Qed.

Lemma same_lists_store token v st : same_lists st (store token v st).
Proof. split; reflexivity. Qed.

Section Worker.
Variable env : Env.
Variable cfgs : list HarvestConfiguration.

Lemma map_rewards_lookup lws st st' k :
  map_rewards cfgs lws st = inr st' ->
  lastTimeRewardWasDumped st' !! k
  = fold_left bump (dump_times cfgs k lws) (lastTimeRewardWasDumped st !! k).
Proof.
  revert st. induction lws as [|[s ts] lws IH]; intros st; simpl.
  - intros [= <-]. reflexivity.
  - unfold dump_times, dumps. simpl.
    destruct (find_configuration cfgs s) as [hc|] eqn:E; [|discriminate].
    intros Hrec. rewrite (IH _ Hrec), note_dumps_lookup.
    unfold dump_times, dumps.
    destruct (existsb (String.eqb k) (tokensBeingDumped hc)); reflexivity.
Qed.

Lemma same_lists_note_dump ts st token : same_lists st (note_dump ts st token).
Proof.
  unfold note_dump. destruct (_ !! _) as [v|]; [destruct (ts >? v)|];
    first [apply same_lists_store | apply same_lists_refl].
Qed.

Lemma same_lists_note_dumps ts tokens st :
  same_lists st (fold_left (note_dump ts) tokens st).
Proof.
  revert st. induction tokens as [|k tokens IH]; intros st; simpl.
  - apply same_lists_refl.
  - eapply same_lists_trans; [apply same_lists_note_dump | apply IH].
Qed.

Lemma same_lists_map_rewards lws st st' :
  map_rewards cfgs lws st = inr st' -> same_lists st st'.
Proof.
  revert st. induction lws as [|[s ts] lws IH]; intros st; simpl.
  - intros [= <-]. apply same_lists_refl.
  - destruct (find_configuration cfgs s) as [hc|]; [|discriminate].
    intros Hrec. eapply same_lists_trans; [apply same_lists_note_dumps | apply IH, Hrec].
Qed.

(** The cooldown rounds read the clock and nothing else. *)
Lemma cooldown_rounds_true tokens st :
  fold_left (cooldown_round env) tokens (st, true) = (st, true).
Proof. induction tokens as [|k tokens IH]; simpl; [reflexivity | exact IH]. Qed.

Lemma cooldown_rounds_state tokens st b st1 b1 :
  fold_left (cooldown_round env) tokens (st, b) = (st1, b1) ->
  same_lists st st1
  /\ lastTimeRewardWasDumped st1 = lastTimeRewardWasDumped st
  /\ stores st1 = stores st
  /\ (now st <= now st1)%nat.
Proof.
  revert st b. induction tokens as [|k tokens IH]; intros st b; simpl.
  - intros [= <- <-]. repeat split; lia.
  - destruct b.
    + rewrite cooldown_rounds_true. intros [= <- <-]. repeat split; lia.
    + intros Hrec. apply IH in Hrec. destruct Hrec as (Hs & Hm & Hst & Hn).
      repeat split; try apply Hs; try assumption. simpl in Hn. lia.
Qed.

Lemma same_lists_mark_dumped tokens st :
  same_lists st (fold_left (mark_dumped env) tokens st).
Proof.
  revert st. induction tokens as [|k tokens IH]; intros st; simpl.
  - apply same_lists_refl.
  - eapply same_lists_trans; [|apply IH]. split; reflexivity.
Qed.

(** What one pass of the loop body adds to the lists. *)
Lemma work_strategy_lists st strategy :
  let st' := work_strategy env cfgs st strategy in
  (worked st' = worked st \/ worked st' = worked st ++ [strategy])%list
  /\ (workCalls st' = workCalls st
      \/ exists limit, workCalls st' = workCalls st ++ [(strategy, limit)])%list.
Proof.
  unfold work_strategy.
  destruct (job_workable env (now st) strategy) as [[|]|]; simpl; auto.
  destruct (find_configuration cfgs strategy) as [hc|]; simpl; auto.
  destruct (fold_left _ _ _) as [st1 b] eqn:Hcd.
  apply cooldown_rounds_state in Hcd. destruct Hcd as ([Hw _ _ _ Hc] & _).
  simpl in Hw, Hc.
  destruct b; simpl; [rewrite Hw, Hc; auto|].
  destruct (job_estimateGas_work env (now st1) strategy) as [g|]; simpl;
    [|rewrite Hw, Hc; auto].
  destruct (job_work env _ strategy _) as [tx|]; simpl.
  - destruct (same_lists_mark_dumped (tokensBeingDumped hc)
                (tick (push_workCall strategy (JS.div (JS.mul g 110) 100) (tick st1))))
      as [Hw' _ _ _ Hc'].
    simpl in Hw', Hc'. rewrite Hw', Hc', Hw, Hc. eauto.
  - rewrite Hw, Hc. eauto.
Qed.

Lemma loop_lists l st :
  let st' := fold_left (work_strategy env cfgs) l st in
  (exists more, worked st' = worked st ++ more /\ forall x, In x more -> In x l)%list
  /\ (exists more, workCalls st' = workCalls st ++ more
                   /\ forall x limit, In (x, limit) more -> In x l)%list.
Proof.
  revert st. induction l as [|s l IH]; intros st; simpl.
  - split; exists []; rewrite app_nil_r; split; auto; intros; contradiction.
  - destruct (IH (work_strategy env cfgs st s)) as [(m1 & E1 & H1) (m2 & E2 & H2)].
    destruct (work_strategy_lists st s) as [Hw Hc]. simpl in Hw, Hc.
    split.
    + destruct Hw as [Hw|Hw]; rewrite Hw in E1.
      * exists m1. split; [exact E1 | auto].
      * exists (s :: m1). rewrite <- app_assoc in E1. split; [exact E1|].
        intros x [<-|Hx]; auto.
    + destruct Hc as [Hc|[limit Hc]]; rewrite Hc in E2.
      * exists m2. split; [exact E2 | eauto].
      * exists ((s, limit) :: m2). rewrite <- app_assoc in E2. split; [exact E2|].
        intros x lim [[= <- <-]|Hx]; eauto.
Qed.

Lemma work_strategy_works st strategy hc st1 gasLimit tx :
  job_workable env (now st) strategy = Some true ->
  find_configuration cfgs strategy = Some hc ->
  fold_left (cooldown_round env) (tokensBeingDumped hc) (tick st, false) = (st1, false) ->
  job_estimateGas_work env (now st1) strategy = Some gasLimit ->
  job_work env (S (now st1)) strategy (Z.quot (gasLimit * 110) 100) = Some tx ->
  work_strategy env cfgs st strategy
  = push_worked strategy
      (fold_left (mark_dumped env) (tokensBeingDumped hc)
         (tick (push_workCall strategy (Z.quot (gasLimit * 110) 100) (tick st1)))).
Proof.
  intros Hw Hc Hcd Hg Hwork. unfold work_strategy.
  rewrite Hw, Hc, Hcd, Hg. unfold JS.div, JS.mul. simpl. rewrite Hwork. reflexivity.
Qed.

Lemma prepare_lists strategies st0 :
  prepare env cfgs = inr (strategies, st0) ->
  worked st0 = [] /\ workCalls st0 = [] /\ errorWhileWorked st0 = [].
Proof.
  unfold prepare.
  destruct (job_strategies env 0) as [all|]; [|discriminate].
  destruct (getLastWorksAt env 1 (eligible all)) as [lws|]; [|discriminate].
  destruct (map_rewards cfgs lws _) as [e|st] eqn:Hm; [discriminate|].
  intros [= <- <-]. apply same_lists_map_rewards in Hm. destruct Hm as [-> _ _ -> ->].
  auto.
Qed.

(** C8.  In a run whose strategies are distinct, a strategy that is
    workable and not on cooldown when its turn comes, for which the gas
    estimate and the [work] call are answered, is submitted with a gas limit
    of the estimate times 110 divided by 100 (truncated), with no other gas
    limit, and appears exactly once in the worked list. *)
Theorem work_with_gas_margin
    (pre post : list string) (strategy : string) (st0 st1 : State)
    (hc : HarvestConfiguration) (gasLimit : Z) (tx : string) :
  prepare env cfgs = inr (pre ++ strategy :: post, st0)%list ->
  ~ In strategy pre -> ~ In strategy post ->
  let st := fold_left (work_strategy env cfgs) pre st0 in
  job_workable env (now st) strategy = Some true ->
  find_configuration cfgs strategy = Some hc ->
  fold_left (cooldown_round env) (tokensBeingDumped hc) (tick st, false) = (st1, false) ->
  job_estimateGas_work env (now st1) strategy = Some gasLimit ->
  job_work env (S (now st1)) strategy (Z.quot (gasLimit * 110) 100) = Some tx ->
  exists final,
    main env cfgs = inr final
    /\ (forall limit,
           In (strategy, limit) (workCalls final) <-> limit = Z.quot (gasLimit * 110) 100)
    /\ count_occ String.string_dec (worked final) strategy = 1%nat.
Proof.
  intros Hprep Hpre Hpost st Hw Hc Hcd Hg Hwork.
  unfold main. rewrite Hprep. eexists. split; [reflexivity|].
  rewrite fold_left_app. simpl. fold st.
  destruct (prepare_lists _ _ Hprep) as (Hw0 & Hc0 & _).
  destruct (loop_lists pre st0) as [(w1 & Ew1 & Hw1) (c1 & Ec1 & Hc1)].
  fold st in Ew1, Ec1. rewrite Hw0 in Ew1. rewrite Hc0 in Ec1. simpl in Ew1, Ec1.
  pose proof (work_strategy_works st strategy hc st1 gasLimit tx Hw Hc Hcd Hg Hwork) as Hstep.
  set (st' := work_strategy env cfgs st strategy) in *.
  assert (Hws : worked st' = (w1 ++ [strategy])%list).
  { rewrite Hstep. simpl.
    destruct (same_lists_mark_dumped (tokensBeingDumped hc)
                (tick (push_workCall strategy (Z.quot (gasLimit * 110) 100) (tick st1))))
      as [E _ _ _ _].
    rewrite E. simpl.
    apply cooldown_rounds_state in Hcd. destruct Hcd as ([E' _ _ _ _] & _).
    rewrite E'. simpl. rewrite Ew1. reflexivity. }
  assert (Hcs : workCalls st' = (c1 ++ [(strategy, Z.quot (gasLimit * 110) 100)])%list).
  { rewrite Hstep. simpl.
    destruct (same_lists_mark_dumped (tokensBeingDumped hc)
                (tick (push_workCall strategy (Z.quot (gasLimit * 110) 100) (tick st1))))
      as [_ _ _ _ E].
    rewrite E. simpl.
    apply cooldown_rounds_state in Hcd. destruct Hcd as ([_ _ _ _ E'] & _).
    rewrite E'. simpl. rewrite Ec1. reflexivity. }
  destruct (loop_lists post st') as [(w2 & Ew2 & Hw2) (c2 & Ec2 & Hc2)].
  rewrite Hws in Ew2. rewrite Hcs in Ec2. split.
  - intros limit. rewrite Ec2. rewrite !in_app_iff. split.
    + intros [[Hin|[[= <-]|[]]]|Hin]; [|reflexivity|].
      * exfalso. eauto.
      * exfalso. eauto.
    + intros ->. left. right. left. reflexivity.
  - rewrite Ew2, !count_occ_app. simpl.
    rewrite (proj1 (count_occ_not_In String.string_dec w1 strategy)) by (intros Hin; eauto).
    rewrite (proj1 (count_occ_not_In String.string_dec w2 strategy)) by (intros Hin; eauto).
    destruct (String.string_dec strategy strategy); [reflexivity | congruence].
Qed.
End Worker.

Section Preparation.
Variable env : Env.
Variable cfgs : list HarvestConfiguration.

Lemma getLastWorksAt_strategies t strategies lws :
  getLastWorksAt env t strategies = Some lws ->
  map fst lws = strategies
  /\ forall s ts, In (s, ts) lws -> exists i v,
        job_lastWorkAt env i s = Some v /\ JS.toNumber v = Some ts.
Proof.
  revert t lws. induction strategies as [|s l IH]; intros t lws; simpl.
  - intros [= <-]. split; [reflexivity | intros ? ? []].
  - unfold getLastWorkAt at 1.
    destruct (job_lastWorkAt env t s) as [v|] eqn:Ev; [|discriminate].
    destruct (JS.toNumber v) as [ts|] eqn:Et; [|discriminate].
    destruct (getLastWorksAt env (S t) l) as [lws'|] eqn:El; [|discriminate].
    intros [= <-]. destruct (IH _ _ El) as [Hm Hin]. split.
    + simpl. f_equal. exact Hm.
    + intros s' ts' [[= <- <-]|Hin']; eauto.
Qed.

Lemma eligible_In all s :
  In s (eligible all) <-> In s all /\ ~ In s sbeetStrats.
Proof.
  unfold eligible, not_denied. rewrite filter_In, negb_true_iff.
  split; intros [Hin Hd]; split; try exact Hin.
  - intros Hs. assert (existsb (String.eqb s) sbeetStrats = true); [|congruence].
    apply existsb_exists. exists s. split; [exact Hs | apply String.eqb_refl].
  - destruct (existsb _ _) eqn:E; [|reflexivity].
    apply existsb_exists in E. destruct E as (x & Hx & Heq).
    apply String.eqb_eq in Heq. subst. contradiction.
Qed.

(** C5.  When the preparation succeeds, the strategies are those of the
    job that are not on the deny list, and for every reward token the map
    holds the maximum [lastWorkAt] of the strategies whose configuration
    lists the token (and nothing when there is none); in particular, when
    two strategies share the token, with [lastWorkAt] T1 < T2, it holds
    T2. *)
Theorem last_dump_is_latest_work (strategies : list string) (st : State) :
  prepare env cfgs = inr (strategies, st) ->
  exists all lastWorksAt,
    job_strategies env 0 = Some all
    /\ (forall s, In s strategies <-> In s all /\ ~ In s sbeetStrats)
    /\ getLastWorksAt env 1 strategies = Some lastWorksAt
    /\ map fst lastWorksAt = strategies
    /\ forall token,
        lastTimeRewardWasDumped st !! token = latest (dump_times cfgs token lastWorksAt)
        /\ (forall v,
            lastTimeRewardWasDumped st !! token = Some v
            <-> In v (dump_times cfgs token lastWorksAt)
                /\ Forall (fun x => x <= v) (dump_times cfgs token lastWorksAt))
        /\ (forall T1 T2,
            T1 < T2 ->
            dump_times cfgs token lastWorksAt = [T1; T2]
            \/ dump_times cfgs token lastWorksAt = [T2; T1] ->
            lastTimeRewardWasDumped st !! token = Some T2).
Proof.
  unfold prepare.
  destruct (job_strategies env 0) as [all|]; [|discriminate].
  destruct (getLastWorksAt env 1 (eligible all)) as [lws|] eqn:El; [|discriminate].
  destruct (map_rewards cfgs lws _) as [e|st'] eqn:Hm; [discriminate|].
  intros [= <- <-]. exists all, lws.
  split; [reflexivity|]. split; [apply eligible_In|]. split; [exact El|].
  split; [apply (getLastWorksAt_strategies _ _ _ El)|].
  intros token.
  assert (E : lastTimeRewardWasDumped st' !! token = latest (dump_times cfgs token lws)).
  { rewrite (map_rewards_lookup cfgs _ _ _ token Hm). simpl.
    rewrite lookup_empty. apply fold_bump_None. }
  split; [exact E|]. split; [intros v; rewrite E; apply latest_is_maximum|].
  intros T1 T2 Hlt [Hd|Hd]; rewrite E, Hd; simpl; f_equal; lia.
Qed.

End Preparation.

(** ** Stores never decrease an entry *)

Section Cooldown.
Variable env : Env.
Variable cfgs : list HarvestConfiguration.

Lemma never_decreased_same_stores st st' :
  stores st' = stores st -> never_decreased st -> never_decreased st'.
Proof. unfold never_decreased. intros ->. auto. Qed.

Lemma never_decreased_store token v st :
  never_decreased st ->
  (forall old, lastTimeRewardWasDumped st !! token = Some old -> old <= v) ->
  never_decreased (store token v st).
Proof.
  intros Hst Hold k old new. simpl. rewrite in_app_iff.
  intros [Hin|[[= <- Hk <-]|[]]]; [eapply Hst; eauto | apply Hold; auto].
Qed.

Lemma never_decreased_note_dump ts st token :
  never_decreased st -> never_decreased (note_dump ts st token).
Proof.
  intros Hst. unfold note_dump.
  destruct (lastTimeRewardWasDumped st !! token) as [last|] eqn:E.
  - destruct (Z.gtb_spec ts last); [|exact Hst].
    apply never_decreased_store; [exact Hst|]. rewrite E. intros old [= <-]. lia.
  - apply never_decreased_store; [exact Hst|]. rewrite E. discriminate.
Qed.

Lemma never_decreased_note_dumps ts tokens st :
  never_decreased st -> never_decreased (fold_left (note_dump ts) tokens st).
Proof.
  revert st. induction tokens as [|k tokens IH]; intros st Hst; simpl; [exact Hst|].
  apply IH, never_decreased_note_dump, Hst.
Qed.

Lemma never_decreased_map_rewards lws st st' :
  map_rewards cfgs lws st = inr st' -> never_decreased st -> never_decreased st'.
Proof.
  revert st. induction lws as [|[s ts] lws IH]; intros st; simpl.
  - intros [= <-]. auto.
  - destruct (find_configuration cfgs s) as [hc|]; [|discriminate].
    intros Hrec Hst. eapply IH; [exact Hrec|]. apply never_decreased_note_dumps, Hst.
Qed.

Hypothesis clock : clock_monotone env.

Lemma cooldown_rounds_bound tokens st st1 :
  fold_left (cooldown_round env) tokens (st, false) = (st1, false) ->
  forall k v, In k tokens -> lastTimeRewardWasDumped st !! k = Some v ->
    v <= moment_unix env (now st1).
Proof.
  revert st. induction tokens as [|t tokens IH]; intros st Hf k v Hin Hk; [destruct Hin|].
  simpl in Hf.
  destruct (lastTimeRewardWasDumped st !! t) as [last|] eqn:Et.
  - destruct (moment_unix env (now st) - REWARD_DUMPED_COOLDOWN <=? last)%Z eqn:Ec.
    + rewrite cooldown_rounds_true in Hf. discriminate.
    + pose proof (cooldown_rounds_state env _ _ _ _ _ Hf) as (_ & _ & _ & Hn).
      simpl in Hn.
      destruct Hin as [<-|Hin].
      * apply Z.leb_gt in Ec. unfold REWARD_DUMPED_COOLDOWN in Ec.
        assert (v = last) by congruence. subst.
        pose proof (clock (now st) (now st1) ltac:(lia)). lia.
      * eapply IH; eauto.
  - destruct Hin as [<-|Hin]; [congruence|]. eapply IH; eauto.
Qed.

Lemma never_decreased_mark_dumped tokens st :
  never_decreased st ->
  (forall k v, In k tokens -> lastTimeRewardWasDumped st !! k = Some v ->
     v <= moment_unix env (now st)) ->
  never_decreased (fold_left (mark_dumped env) tokens st).
Proof.
  revert st. induction tokens as [|t tokens IH]; intros st Hst Hb; simpl; [exact Hst|].
  apply IH.
  - unfold mark_dumped.
    apply (never_decreased_same_stores (store t (moment_unix env (now st)) st));
      [reflexivity|].
    apply never_decreased_store; [exact Hst|]. intros old Ho. eapply Hb; [left; reflexivity | exact Ho].
  - intros k v Hin. unfold mark_dumped. simpl.
    pose proof (clock (now st) (S (now st)) ltac:(lia)) as Hc.
    destruct (decide (t = k)) as [->|Hne].
    + rewrite lookup_insert_eq. intros [= <-]. exact Hc.
    + rewrite lookup_insert_ne by exact Hne. intros Hk.
      specialize (Hb k v (or_intror Hin) Hk). lia.
Qed.

Lemma never_decreased_work_strategy st strategy :
  never_decreased st -> never_decreased (work_strategy env cfgs st strategy).
Proof.
  intros Hst. unfold work_strategy.
  destruct (job_workable env (now st) strategy) as [[|]|]; try exact Hst.
  destruct (find_configuration cfgs strategy) as [hc|]; [|exact Hst].
  destruct (fold_left _ _ _) as [st1 b] eqn:Hcd.
  pose proof (cooldown_rounds_state env _ _ _ _ _ Hcd) as (_ & Hm & Hs & Hn).
  simpl in Hm, Hs, Hn.
  assert (Hst1 : never_decreased st1) by (eapply never_decreased_same_stores; eauto).
  destruct b; [exact Hst1|].
  destruct (job_estimateGas_work env (now st1) strategy) as [g|]; [|exact Hst1].
  destruct (job_work env _ strategy _) as [tx|]; [|exact Hst1].
  eapply never_decreased_same_stores; [reflexivity|].
  apply never_decreased_mark_dumped; [exact Hst1|].
  intros k v Hin Hk. simpl in Hk. rewrite Hm in Hk.
  pose proof (cooldown_rounds_bound _ _ _ Hcd k v Hin Hk).
  simpl. pose proof (clock (now st1) (S (S (now st1))) ltac:(lia)). lia.
Qed.

Lemma never_decreased_loop l st :
  never_decreased st -> never_decreased (fold_left (work_strategy env cfgs) l st).
Proof.
  revert st. induction l as [|s l IH]; intros st Hst; simpl; [exact Hst|].
  apply IH, never_decreased_work_strategy, Hst.
Qed.

(** Under a clock that never goes back, no store of a run that completes
    puts a value below the one it found. *)
Lemma never_decreased_main (final : State) :
  main env cfgs = inr final -> never_decreased final.
Proof.
  unfold main, prepare.
  destruct (job_strategies env 0) as [all|]; [|discriminate].
  destruct (getLastWorksAt env 1 (eligible all)) as [lws|]; [|discriminate].
  destruct (map_rewards cfgs lws _) as [e|st] eqn:Hm; [discriminate|].
  intros [= <-]. apply never_decreased_loop.
  eapply never_decreased_map_rewards; [exact Hm|].
  intros token old new [].
Qed.
End Cooldown.

(** C9 (as amended).  No store of the construction of the map puts a value
    below the one it found for the token, whatever the clock does; and,
    provided the local clock never goes back, in a run that completes no
    store at all (neither of the construction nor after a work submission)
    puts a value below the one it found. *)
Theorem last_dump_never_decreases (env : Env) (cfgs : list HarvestConfiguration) :
  (forall strategies st0,
      prepare env cfgs = inr (strategies, st0) ->
      forall token old new, In (token, Some old, new) (stores st0) -> old <= new)
  /\ (clock_monotone env ->
      forall final,
        main env cfgs = inr final ->
        forall token old new, In (token, Some old, new) (stores final) -> old <= new).
Proof.
  split.
  - intros strategies st0. unfold prepare.
    destruct (job_strategies env 0) as [all|]; [|discriminate].
    destruct (getLastWorksAt env 1 (eligible all)) as [lws|]; [|discriminate].
    destruct (map_rewards cfgs lws _) as [e|st] eqn:Hm; [discriminate|].
    intros [= _ <-].
    eapply (never_decreased_map_rewards cfgs); [exact Hm|].
    intros token old new [].
  - intros clock final Hmain. exact (never_decreased_main env cfgs clock final Hmain).
Qed.

(** C9 (as stated) fails: the store after a work submission is
    unconditional.  On a machine whose clock is set back during the run the
    entry of the reward token, 1000 after the construction, is overwritten
    with 900. *)
Lemma clock_set_back_decreases_last_dump :
  exists final,
    main set_back_job two_configurations = inr final
    /\ worked final = [strategy_a]
    /\ stores final = [(reward, None, 1000); (reward, Some 1000, 900)]
    /\ lastTimeRewardWasDumped final !! reward = Some 900
    /\ ~ never_decreased final.
Proof.
  destruct (main set_back_job two_configurations) as [e|final] eqn:E;
    [vm_compute in E; discriminate E|].
  exists final. split; [reflexivity|].
  assert (Hs : stores final = [(reward, None, 1000); (reward, Some 1000, 900)]).
  { vm_compute in E. injection E as <-. reflexivity. }
  split; [vm_compute in E; injection E as <-; reflexivity|].
  split; [exact Hs|].
  split; [vm_compute in E; injection E as <-; vm_compute; reflexivity|].
  intros H. specialize (H reward 1000 900). rewrite Hs in H.
  assert (1000 <= 900) by (apply H; right; left; reflexivity). lia.
Qed.

Section ErrorHandling.
Variable env : Env.
Variable cfgs : list HarvestConfiguration.

Lemma map_rewards_rejects lws st e :
  map_rewards cfgs lws st = inl e
  <-> e = MismatchError "Mismatch between harvests configuration and job strategies"
      /\ exists s, In s (map fst lws) /\ find_configuration cfgs s = None.
Proof.
  revert st. induction lws as [|[s ts] lws IH]; intros st; simpl.
  - split; [discriminate | intros (_ & s & [] & _)].
  - destruct (find_configuration cfgs s) as [hc|] eqn:E.
    + rewrite IH. split.
      * intros (-> & s' & Hin & Hs'). eauto.
      * intros (-> & s' & [<-|Hin] & Hs'); [congruence | eauto].
    + split.
      * intros [= <-]. eauto.
      * intros (-> & _). reflexivity.
Qed.

Lemma getLastWorksAt_rejected t strategies :
  getLastWorksAt env t strategies = None
  <-> exists i s, nth_error strategies i = Some s /\ getLastWorkAt env (t + i) s = None.
Proof.
  revert t. induction strategies as [|s l IH]; intros t; simpl.
  - split; [discriminate | intros (i & s & Hn & _); destruct i; discriminate].
  - destruct (getLastWorkAt env t s) as [x|] eqn:E.
    + destruct (getLastWorksAt env (S t) l) as [lws|] eqn:El.
      * split; [discriminate|]. intros (i & s' & Hn & Hr).
        destruct i as [|i]; simpl in Hn.
        -- injection Hn as <-. rewrite Nat.add_0_r in Hr. congruence.
        -- assert (getLastWorksAt env (S t) l = None); [|congruence].
           apply IH. exists i, s'. split; [exact Hn|].
           rewrite <- Hr. f_equal. lia.
      * split; [|reflexivity]. intros _.
        destruct (proj1 (IH (S t)) El) as (i & s' & Hn & Hr).
        exists (S i), s'. split; [exact Hn|]. rewrite <- Hr. f_equal. lia.
    + split; [|reflexivity]. intros _. exists 0%nat, s.
      split; [reflexivity|]. rewrite Nat.add_0_r. exact E.
Qed.

Lemma throws_caught st strategy :
  throws env cfgs st strategy ->
  let st' := work_strategy env cfgs st strategy in
  (errorWhileWorked st' = errorWhileWorked st ++ [strategy])%list
  /\ worked st' = worked st
  /\ notWorkable st' = notWorkable st
  /\ onLiquidityCooldown st' = onLiquidityCooldown st.
Proof.
  intros Ht. unfold work_strategy.
  destruct Ht as [Hw | Hw Hc | hc st1 Hw Hc Hcd Hg | hc st1 g Hw Hc Hcd Hg Hwork].
  - rewrite Hw. simpl. auto.
  - rewrite Hw, Hc. simpl. auto.
  - rewrite Hw, Hc, Hcd, Hg. simpl.
    apply cooldown_rounds_state in Hcd. destruct Hcd as ([-> -> -> -> _] & _).
    simpl. auto.
  - rewrite Hw, Hc, Hcd, Hg. simpl. rewrite Hwork. simpl.
    apply cooldown_rounds_state in Hcd. destruct Hcd as ([-> -> -> -> _] & _).
    simpl. auto.
Qed.

Lemma no_throw_no_error st strategy :
  ~ throws env cfgs st strategy ->
  errorWhileWorked (work_strategy env cfgs st strategy) = errorWhileWorked st.
Proof.
  intros Hn. unfold work_strategy.
  destruct (job_workable env (now st) strategy) as [[|]|] eqn:Hw;
    [| reflexivity | exfalso; apply Hn; apply throws_workable; exact Hw].
  destruct (find_configuration cfgs strategy) as [hc|] eqn:Hc;
    [| exfalso; apply Hn; apply throws_undefined; assumption].
  destruct (fold_left _ _ _) as [st1 b] eqn:Hcd.
  pose proof (cooldown_rounds_state env _ _ _ _ _ Hcd) as ([_ _ _ He _] & _).
  simpl in He.
  destruct b; [exact He|].
  destruct (job_estimateGas_work env (now st1) strategy) as [g|] eqn:Hg;
    [| exfalso; apply Hn; eapply throws_estimateGas; eassumption].
  destruct (job_work env _ strategy _) as [tx|] eqn:Hwork;
    [| exfalso; apply Hn; eapply throws_work; eassumption].
  simpl.
  destruct (same_lists_mark_dumped env (tokensBeingDumped hc)
              (tick (push_workCall strategy (JS.div (JS.mul g 110) 100) (tick st1))))
    as [_ _ _ E _].
  rewrite E. exact He.
Qed.

(** C6 (as amended).  Nothing that happens in the loop makes the run
    reject: when the body throws for a strategy, the strategy is appended
    to the errored list (and to no other list), and the loop goes on with
    the strategies that follow.  A run rejects exactly when, before the
    loop, the read of the strategies is rejected, or the read of the
    [lastWorkAt] of a strategy that is not on the deny list is, or such a
    strategy has no harvest configuration. *)
Theorem loop_errors_are_caught :
  (forall e,
      main env cfgs = inl e
      <-> (e = CallRejected /\ job_strategies env 0 = None)
          \/ (e = CallRejected
              /\ exists all i s,
                  job_strategies env 0 = Some all
                  /\ nth_error (eligible all) i = Some s
                  /\ getLastWorkAt env (1 + i) s = None)
          \/ (e = MismatchError "Mismatch between harvests configuration and job strategies"
              /\ exists all s,
                  job_strategies env 0 = Some all
                  /\ getLastWorksAt env 1 (eligible all) <> None
                  /\ In s (eligible all)
                  /\ find_configuration cfgs s = None))
  /\ (forall st strategy,
         let st' := work_strategy env cfgs st strategy in
         (throws env cfgs st strategy ->
            (errorWhileWorked st' = errorWhileWorked st ++ [strategy])%list
            /\ worked st' = worked st
            /\ notWorkable st' = notWorkable st
            /\ onLiquidityCooldown st' = onLiquidityCooldown st)
         /\ (~ throws env cfgs st strategy ->
            errorWhileWorked st' = errorWhileWorked st))
  /\ (forall pre strategy post st,
         fold_left (work_strategy env cfgs) (pre ++ strategy :: post)%list st
         = fold_left (work_strategy env cfgs) post
             (work_strategy env cfgs (fold_left (work_strategy env cfgs) pre st) strategy)).
Proof.
  split; [|split].
  - intros e. unfold main, prepare.
    destruct (job_strategies env 0) as [all|] eqn:Es.
    + destruct (getLastWorksAt env 1 (eligible all)) as [lws|] eqn:El.
      * destruct (map_rewards cfgs lws _) as [e'|st] eqn:Hm.
        -- apply map_rewards_rejects in Hm. destruct Hm as (-> & s & Hin & Hs).
           rewrite (proj1 (getLastWorksAt_strategies env _ _ _ El)) in Hin.
           split.
           ++ intros [= <-]. right. right. split; [reflexivity|].
              exists all, s. rewrite El. repeat split; auto; discriminate.
           ++ intros [(-> & ?) | [(-> & a & i & s' & Ha & Hn & Hr) | (-> & _)]];
                [discriminate | | reflexivity].
              injection Ha as <-.
              assert (getLastWorksAt env 1 (eligible all) = None); [|congruence].
              apply getLastWorksAt_rejected. eauto.
        -- split; [discriminate|].
           intros [(-> & ?) | [(-> & a & i & s' & Ha & Hn & Hr) | (-> & a & s & Ha & _ & Hin & Hs)]];
             [discriminate | |].
           ++ injection Ha as <-.
              assert (getLastWorksAt env 1 (eligible all) = None); [|congruence].
              apply getLastWorksAt_rejected. eauto.
           ++ injection Ha as <-.
              assert (Hrej : map_rewards cfgs lws (initial (S (length (eligible all))))
                             = inl (MismatchError
                                 "Mismatch between harvests configuration and job strategies")).
              { apply map_rewards_rejects. split; [reflexivity|]. exists s.
                rewrite (proj1 (getLastWorksAt_strategies env _ _ _ El)). auto. }
              congruence.
      * apply getLastWorksAt_rejected in El. destruct El as (i & s & Hn & Hr). split.
        -- intros [= <-]. right. left. split; [reflexivity|]. exists all, i, s. auto.
        -- intros [(-> & _) | [(-> & _) | (-> & a & s' & Ha & Hne & _)]];
             [reflexivity | reflexivity |].
           injection Ha as <-. exfalso. apply Hne.
           apply getLastWorksAt_rejected. eauto.
    + split.
      * intros [= <-]. left. auto.
      * intros [(-> & _) | [(-> & a & i & s & Ha & _) | (-> & a & s & Ha & _)]];
          [reflexivity | discriminate | discriminate].
  - intros st strategy st'. split; [apply throws_caught | apply no_throw_no_error].
  - intros pre strategy post st. rewrite fold_left_app. reflexivity.
Qed.
End ErrorHandling.

(** C6 (as stated) fails: every strategy of the job has a harvest
    configuration, the read of one [lastWorkAt] is rejected, and the whole
    run rejects. *)
Lemma rejected_read_aborts_the_run :
  job_strategies rejecting_job 0 = Some [strategy_a; strategy_b]
  /\ eligible [strategy_a; strategy_b] = [strategy_a; strategy_b]
  /\ (forall s, In s [strategy_a; strategy_b] ->
        find_configuration two_configurations s <> None)
  /\ main rejecting_job two_configurations = inl CallRejected.
Proof.
  split; [reflexivity|]. split; [reflexivity|]. split; [|reflexivity].
  intros s [<-|[<-|[]]]; vm_compute; discriminate.
Qed.

(** C5 on the scripted job: two strategies share the reward token, with
    [lastWorkAt] 100 and 200; the map holds 200. *)
Lemma last_dump_is_latest_work_witness :
  exists st,
    prepare two_strategies_job two_configurations = inr ([strategy_a; strategy_b], st)
    /\ lastTimeRewardWasDumped st !! reward = Some 200.
Proof.
  destruct (prepare two_strategies_job two_configurations) as [e|[l st]] eqn:E;
    [vm_compute in E; discriminate E|].
  assert (El : l = [strategy_a; strategy_b]).
  { vm_compute in E. injection E as <- _. reflexivity. }
  subst l. exists st. split; [reflexivity|].
  destruct (last_dump_is_latest_work two_strategies_job two_configurations _ _ E)
    as (all & lws & _ & _ & Hl & _ & Hmap).
  rewrite (proj1 (Hmap reward)).
  vm_compute in Hl. injection Hl as <-. reflexivity.
Defined.

(** C8 on the scripted job: the first strategy is worked with a gas limit
    of 21001 * 110 / 100 = 23101 and is in the worked list once. *)
Lemma work_with_gas_margin_witness :
  exists final,
    main two_strategies_job two_configurations = inr final
    /\ (forall limit, In (strategy_a, limit) (workCalls final) <-> limit = 23101)
    /\ count_occ String.string_dec (worked final) strategy_a = 1%nat.
Proof.
  destruct (prepare two_strategies_job two_configurations) as [e|[l st0]] eqn:E;
    [vm_compute in E; discriminate E|].
  assert (El : l = ([] ++ strategy_a :: [strategy_b])%list).
  { vm_compute in E. injection E as <- _. reflexivity. }
  subst l.
  assert (Est : st0 = store reward 200 (store reward 100 (initial 3))).
  { vm_compute in E. injection E as <-. vm_compute. reflexivity. }
  apply (work_with_gas_margin two_strategies_job two_configurations
           [] [strategy_b] strategy_a st0
           (tick (tick st0))
           {| address := "0xaaAA"; tokensBeingDumped := [reward] |}
           21001 "0x5eb1" E).
  - intros [].
  - intros [Hab|[]]. discriminate Hab.
  - reflexivity.
  - reflexivity.
  - subst st0. vm_compute. reflexivity.
  - reflexivity.
  - reflexivity.
Defined.

(** C9 on the scripted job, whose clock advances with every interaction. *)
Lemma last_dump_never_decreases_witness :
  clock_monotone two_strategies_job
  /\ exists final,
      main two_strategies_job two_configurations = inr final
      /\ forall token old new, In (token, Some old, new) (stores final) -> old <= new.
Proof.
  assert (Hclock : clock_monotone two_strategies_job).
  { intros i j Hij. simpl. lia. }
  split; [exact Hclock|].
  destruct (main two_strategies_job two_configurations) as [e|final] eqn:E;
    [vm_compute in E; discriminate E|].
  exists final. split; [reflexivity|].
  exact (proj2 (last_dump_never_decreases two_strategies_job two_configurations)
           Hclock final E).
Defined.

(* ===================================================================== *)
(** * Further properties of the solvers *)
(* ===================================================================== *)

(** ** The relational operator with a zero allowance *)

Lemma nzhead_head (u v : Decimal.uint) : Decimal.nzhead u <> Decimal.D0 v.
Proof. induction u; simpl; try discriminate. exact IHu. Qed.

Lemma to_uint_head (p : positive) (u : Decimal.uint) : Pos.to_uint p <> Decimal.D0 u.
Proof.
  intros E.
  assert (Hn : Decimal.unorm (Pos.to_uint p) = Pos.to_uint p).
  { rewrite <- (DecimalPos.Unsigned.to_of (Pos.to_uint p)).
    rewrite DecimalPos.Unsigned.of_to. reflexivity. }
  rewrite E in Hn. rewrite DecimalFacts.unorm_D0 in Hn.
  unfold Decimal.unorm in Hn.
  destruct (Decimal.nzhead u) eqn:Hz; try discriminate Hn.
  - injection Hn as <-. exact (DecimalPos.Unsigned.to_uint_nonzero p E).
  - exact (nzhead_head u _ (eq_trans Hz Hn)).
Qed.

Lemma bn_lt_operator_zero (b : Z) : JS.bn_lt_operator 0 b = (0 <? b)%Z.
Proof.
  unfold JS.bn_lt_operator, JS.bn_toString.
  destruct b as [|p|p]; simpl; [reflexivity| |reflexivity].
  pose proof (to_uint_head p) as Hh.
  pose proof (DecimalPos.Unsigned.to_uint_nonnil p) as Hnil.
  destruct (Pos.to_uint p); simpl; try reflexivity.
  - congruence.
  - exfalso. eapply Hh. reflexivity.
Qed.

(** X1.  No trade is matched by both solvers. *)
Theorem no_trade_matches_both (t : ExtendedEnabledTrade) :
  ThreePoolCrvMulticall.match_ t = true -> CurveSpellEthMulticall.match_ t = false.
Proof.
  unfold ThreePoolCrvMulticall.match_, CurveSpellEthMulticall.match_.
  rewrite !andb_true_iff. intros [[Hs _] _].
  apply String.eqb_eq in Hs. rewrite Hs. reflexivity.
Qed.

Section FurtherSolveProperties.
Context {chain : Type} `{Chain chain}.

(** X2.  When [ThreePoolCrvMulticall] solves a trade it matches, the whole
    3crv balance of the solver's strategy is what it transfers first and
    what the payload removes from the pool; the descriptor names the
    strategy and yveCRV, that balance as amount, and as minimum output the
    yveCRV balance of the swapper in the chain state the simulation ends
    in. *)
Theorem three_pool_matched_trade (c : chain) (trade : ExtendedEnabledTrade)
    (w : world) (setup : TradeSetup) :
  ThreePoolCrvMulticall.match_ trade = true ->
  run (ThreePoolCrvMulticall.solve trade) c = (w, inr setup) ->
  let amount := balanceOf c ThreePoolCrvMulticall.threeCrv ThreePoolCrvMulticall.strategy in
  nth_error (w_trace w) 0
  = Some (Sent ThreePoolCrvMulticall.strategy
            (call ThreePoolCrvMulticall.threeCrv
               (transfer ThreePoolCrvMulticall.multicallSwapper amount)))
  /\ nth_error (e_data (transaction setup)) 0
     = Some (call ThreePoolCrvMulticall.crv3Pool (remove_liquidity_one_coin amount 1 0))
  /\ e_trades (transaction setup)
     = [ {| d_strategy := ThreePoolCrvMulticall.strategy;
            d_tokenIn := _tokenIn trade;
            d_tokenOut := ThreePoolCrvMulticall.yveCrv;
            d_amount := amount;
            d_minAmountOut :=
              balanceOf (w_chain w) ThreePoolCrvMulticall.yveCrv
                ThreePoolCrvMulticall.multicallSwapper |} ]
  /\ e_swapper (transaction setup) = ThreePoolCrvMulticall.multicallSwapper.
Proof.
  intros Hm Hrun amount.
  unfold ThreePoolCrvMulticall.match_ in Hm. rewrite !andb_true_iff in Hm.
  destruct Hm as [[Hs _] Ho]. apply String.eqb_eq in Hs, Ho.
  revert Hrun. unfold_solve. cbn [w_chain w_trace]. rewrite Hs, Ho. fold amount.
  exec; try discriminate; intros [= <- <-]; repeat split; reflexivity.
Qed.

(** X3.  When [CurveSpellEthMulticall.solve] returns, one of the two
    balances was positive, and the two descriptors carry, in this order,
    CRV and CVX with the strategy's balances read before anything was
    moved, the solver's own strategy, the trade's tokenOut, and a minimum
    output of zero. *)
Theorem curve_spell_descriptors (c : chain) (trade : ExtendedEnabledTrade)
    (w : world) (setup : TradeSetup) :
  run (CurveSpellEthMulticall.solve trade) c = (w, inr setup) ->
  let crvBalance := balanceOf c CurveSpellEthMulticall.crv CurveSpellEthMulticall.strategy in
  let cvxBalance := balanceOf c CurveSpellEthMulticall.cvx CurveSpellEthMulticall.strategy in
  (0 < crvBalance \/ 0 < cvxBalance)
  /\ map d_amount (e_trades (transaction setup)) = [crvBalance; cvxBalance]
  /\ map d_tokenIn (e_trades (transaction setup))
     = [JS.Str CurveSpellEthMulticall.crv; JS.Str CurveSpellEthMulticall.cvx]
  /\ Forall (fun d => d_minAmountOut d = 0
                      /\ d_strategy d = CurveSpellEthMulticall.strategy
                      /\ d_tokenOut d = _tokenOut trade)
       (e_trades (transaction setup))
  /\ e_swapper (transaction setup) = CurveSpellEthMulticall.multicallSwapper.
Proof.
  intros Hrun crvBalance cvxBalance.
  revert Hrun. unfold_solve. cbn [w_chain w_trace]. fold crvBalance cvxBalance.
  destruct (JS.lte crvBalance 0 && JS.lte cvxBalance 0) eqn:Hg; [discriminate|].
  assert (Hpos : 0 < crvBalance \/ 0 < cvxBalance).
  { unfold JS.lte in Hg. apply andb_false_iff in Hg.
    destruct Hg as [Hg|Hg]; apply Z.leb_gt in Hg; auto. }
  exec; try discriminate; intros [= <- <-];
    (split; [exact Hpos|]); repeat split; try reflexivity;
    repeat constructor.
Qed.

(** X4.  A solve that throws the failure of an external call made that
    call last: nothing is attempted after it.  [ThreePoolCrvMulticall]
    throws nothing else; [CurveSpellEthMulticall] throws a string only as
    [':shrug:'], before any call and with the chain as it was. *)
Theorem a_failed_call_ends_the_solve (c : chain) (trade : ExtendedEnabledTrade) :
  let tp := run (ThreePoolCrvMulticall.solve trade) c in
  let cs := run (CurveSpellEthMulticall.solve trade) c in
  (forall e, snd tp = inl (CallFailed e) -> last (w_trace (fst tp)) = Some e)
  /\ (forall s, snd tp <> inl (ThrownString s))
  /\ (forall e, snd cs = inl (CallFailed e) -> last (w_trace (fst cs)) = Some e)
  /\ (forall s, snd cs = inl (ThrownString s) ->
        s = ":shrug:" /\ fst cs = {| w_chain := c; w_trace := [] |}).
Proof.
  intros tp cs. subst tp cs. repeat split.
  - intros e. unfold_solve. exec; intros [=]; subst; reflexivity.
  - intros s. unfold_solve. exec; discriminate.
  - intros e. unfold_solve. cbn [w_chain w_trace].
    destruct (JS.lte _ 0 && JS.lte _ 0); [discriminate|].
    exec; intros [=]; subst; reflexivity.
  - revert H0. unfold_solve. cbn [w_chain w_trace].
    destruct (JS.lte _ 0 && JS.lte _ 0); [intros [= <-]; reflexivity|].
    exec; discriminate.
  - revert H0. unfold_solve. cbn [w_chain w_trace].
    destruct (JS.lte _ 0 && JS.lte _ 0); [intros [= <-]; reflexivity|].
    exec; discriminate.
Qed.
(** X5.  Whatever the chain answers and however far a solve gets, the
    strategy signs nothing but transfers to the swapper, every other
    transaction is signed by the swapper and is not a transfer, and every
    approval is for [MaxUint256]. *)
Theorem solves_sign_as_expected (c : chain) (trade : ExtendedEnabledTrade) :
  Forall (signed_as_expected ThreePoolCrvMulticall.strategy
            ThreePoolCrvMulticall.multicallSwapper)
    (w_trace (fst (run (ThreePoolCrvMulticall.solve trade) c)))
  /\ Forall (signed_as_expected CurveSpellEthMulticall.strategy
               CurveSpellEthMulticall.multicallSwapper)
       (w_trace (fst (run (CurveSpellEthMulticall.solve trade) c)))
  /\ unlimited_approvals (sent (w_trace (fst (run (ThreePoolCrvMulticall.solve trade) c))))
  /\ unlimited_approvals (sent (w_trace (fst (run (CurveSpellEthMulticall.solve trade) c)))).
Proof.
  split; [|split; [|split]].
  - unfold_solve. exec; signed.
  - unfold_solve. cbn [w_chain w_trace].
    destruct (JS.lte _ 0 && JS.lte _ 0); [apply List.Forall_nil|].
    exec; signed.
  - unfold unlimited_approvals. unfold_solve. intros tx sp amt.
    exec; cbn [sent flat_map app In]; intros Hin Hd;
      repeat (destruct Hin as [<-|Hin]; [try discriminate Hd; injection Hd as _ <-; reflexivity|]);
      destruct Hin.
  - unfold unlimited_approvals. unfold_solve. cbn [w_chain w_trace]. intros tx sp amt.
    destruct (JS.lte _ 0 && JS.lte _ 0); [intros []|].
    exec; cbn [sent flat_map app In]; intros Hin Hd;
      repeat (destruct Hin as [<-|Hin]; [try discriminate Hd; injection Hd as _ <-; reflexivity|]);
      destruct Hin.
Qed.

(** X6.  In [ThreePoolCrvMulticall.solve], when the swapper's usdc balance
    before the removal is not negative, the amount quoted for the swap is
    at most the total balance minus one (one wei stays); it is not
    positive when the removal added nothing, and it is -1 when both
    balances are zero. *)
Theorem three_pool_leaves_dust (c c1 c2 : chain) (trade : ExtendedEnabledTrade) :
  let amount := balanceOf c ThreePoolCrvMulticall.threeCrv (_strategy trade) in
  sendTransaction c ThreePoolCrvMulticall.strategy
    (call ThreePoolCrvMulticall.threeCrv
       (transfer ThreePoolCrvMulticall.multicallSwapper amount)) = Some c1 ->
  sendTransaction c1 ThreePoolCrvMulticall.multicallSwapper
    (call ThreePoolCrvMulticall.crv3Pool (remove_liquidity_one_coin amount 1 0)) = Some c2 ->
  let pre := balanceOf c1 ThreePoolCrvMulticall.usdc ThreePoolCrvMulticall.multicallSwapper in
  let total := balanceOf c2 ThreePoolCrvMulticall.usdc ThreePoolCrvMulticall.multicallSwapper in
  0 <= pre ->
  exists sold,
    nth_error (w_trace (fst (run (ThreePoolCrvMulticall.solve trade) c))) 2
    = Some (Quoted (ThreePoolCrvMulticall.quoteRequest sold))
    /\ sold <= total - 1
    /\ (total <= pre -> sold <= 0)
    /\ (total = 0 -> pre = 0 -> sold = -1).
Proof.
  intros amount H1 H2 pre total Hpre.
  exists (ThreePoolCrvMulticall.dust pre total). split.
  - unfold_solve. cbn [w_chain w_trace]. fold amount. rewrite H1.
    cbn [w_chain w_trace]. rewrite H2. cbn [w_chain w_trace]. fold pre total.
    exec; reflexivity.
  - unfold ThreePoolCrvMulticall.dust, JS.eq, JS.sub.
    destruct (Z.eqb_spec total (total - pre)); repeat split; lia.
Qed.

(** X7.  Let [c1] be the state after the funding transfer, [c2] the one
    after the removal of liquidity, [sold] the amount the solve puts in the
    quote request and [q] the answer to that request in [c2].  When the
    swapper has granted no usdc to the allowance target of [q] in [c2],
    where the solve reads it, and the solve returns, the payload is the
    removal of liquidity, the approval exactly when the amount sold is
    positive, the swap of [q], and the withdrawal to the strategy. *)
Theorem three_pool_first_approval (c c1 c2 : chain) (trade : ExtendedEnabledTrade)
    (q : QuoteResponse) (w : world) (setup : TradeSetup) :
  let amount := balanceOf c ThreePoolCrvMulticall.threeCrv (_strategy trade) in
  sendTransaction c ThreePoolCrvMulticall.strategy
    (call ThreePoolCrvMulticall.threeCrv
       (transfer ThreePoolCrvMulticall.multicallSwapper amount)) = Some c1 ->
  sendTransaction c1 ThreePoolCrvMulticall.multicallSwapper
    (call ThreePoolCrvMulticall.crv3Pool (remove_liquidity_one_coin amount 1 0)) = Some c2 ->
  let sold :=
    ThreePoolCrvMulticall.dust
      (balanceOf c1 ThreePoolCrvMulticall.usdc ThreePoolCrvMulticall.multicallSwapper)
      (balanceOf c2 ThreePoolCrvMulticall.usdc ThreePoolCrvMulticall.multicallSwapper) in
  zrx_quote c2 (ThreePoolCrvMulticall.quoteRequest sold) = Some q ->
  allowance c2 ThreePoolCrvMulticall.usdc ThreePoolCrvMulticall.multicallSwapper
    (allowanceTarget q) = 0 ->
  run (ThreePoolCrvMulticall.solve trade) c = (w, inr setup) ->
  e_data (transaction setup)
  = ([call ThreePoolCrvMulticall.crv3Pool (remove_liquidity_one_coin amount 1 0)]
     ++ (if (0 <? sold)%Z
         then [call ThreePoolCrvMulticall.usdc (approve (allowanceTarget q) JS.MaxUint256)]
         else [])
     ++ [call ThreePoolCrvMulticall.zrxContract (quoted (q_data q));
         call ThreePoolCrvMulticall.yvBoost
           (vault_withdraw JS.MaxUint256 ThreePoolCrvMulticall.strategy 0)])%list.
Proof.
  intros amount H1 H2 sold Hq Hzero. unfold_solve. cbn [w_chain w_trace].
  fold amount. rewrite H1. cbn [w_chain w_trace]. rewrite H2. cbn [w_chain w_trace].
  fold sold. rewrite Hq. cbn [w_chain w_trace]. rewrite Hzero, bn_lt_operator_zero.
  destruct (0 <? sold)%Z; exec; try discriminate; intros [= <- <-]; reflexivity.
Qed.


End FurtherSolveProperties.

(* ===================================================================== *)
(** * Further properties of the harvest worker *)
(* ===================================================================== *)

Lemma outcomes_push (a b c d : list string) (s : string) :
  Permutation ((a ++ [s]) ++ b ++ c ++ d) (s :: a ++ b ++ c ++ d)
  /\ Permutation (a ++ (b ++ [s]) ++ c ++ d) (s :: a ++ b ++ c ++ d)
  /\ Permutation (a ++ b ++ (c ++ [s]) ++ d) (s :: a ++ b ++ c ++ d)
  /\ Permutation (a ++ b ++ c ++ d ++ [s]) (s :: a ++ b ++ c ++ d).
Proof.
  repeat split; symmetry.
  - replace ((a ++ [s]) ++ b ++ c ++ d)%list with (a ++ s :: (b ++ c ++ d))%list
      by (rewrite <- ?List.app_assoc; reflexivity).
    apply Permutation_cons_app. reflexivity.
  - replace (a ++ (b ++ [s]) ++ c ++ d)%list with ((a ++ b) ++ s :: (c ++ d))%list
      by (rewrite <- ?List.app_assoc; reflexivity).
    apply Permutation_cons_app. rewrite <- ?List.app_assoc. reflexivity.
  - replace (a ++ b ++ (c ++ [s]) ++ d)%list with ((a ++ b ++ c) ++ s :: d)%list
      by (rewrite <- ?List.app_assoc; reflexivity).
    apply Permutation_cons_app. rewrite <- ?List.app_assoc. reflexivity.
  - replace (a ++ b ++ c ++ d ++ [s])%list with ((a ++ b ++ c ++ d) ++ s :: [])%list
      by (rewrite <- ?List.app_assoc; reflexivity).
    apply Permutation_cons_app. rewrite List.app_nil_r. reflexivity.
Qed.

Section FurtherWorkerProperties.
Variable env : Env.
Variable cfgs : list HarvestConfiguration.

Lemma work_strategy_outcomes st strategy :
  Permutation (outcomes (work_strategy env cfgs st strategy)) (strategy :: outcomes st).
Proof.
  destruct (outcomes_push (worked st) (notWorkable st) (onLiquidityCooldown st)
              (errorWhileWorked st) strategy) as (Pw & Pn & Pc & Pe).
  unfold work_strategy, outcomes.
  destruct (job_workable env (now st) strategy) as [[|]|]; simpl; try assumption.
  destruct (find_configuration cfgs strategy) as [hc|]; simpl; try assumption.
  destruct (fold_left _ _ _) as [st1 b] eqn:Hcd.
  apply cooldown_rounds_state in Hcd. destruct Hcd as ([Hw Hn Hc He _] & _).
  simpl in Hw, Hn, Hc, He.
  destruct b; simpl; [rewrite Hw, Hn, Hc, He; assumption|].
  destruct (job_estimateGas_work env (now st1) strategy) as [g|]; simpl;
    [|rewrite Hw, Hn, Hc, He; assumption].
  destruct (job_work env _ strategy _) as [tx|]; simpl;
    [|rewrite Hw, Hn, Hc, He; assumption].
  destruct (same_lists_mark_dumped env (tokensBeingDumped hc)
              (tick (push_workCall strategy (JS.div (JS.mul g 110) 100) (tick st1))))
    as [Hw' Hn' Hc' He' _].
  simpl in Hw', Hn', Hc', He'.
  rewrite Hw', Hn', Hc', He', Hw, Hn, Hc, He. assumption.
Qed.

Lemma loop_outcomes l st :
  Permutation (outcomes (fold_left (work_strategy env cfgs) l st)) (l ++ outcomes st).
Proof.
  revert st. induction l as [|s l IH]; intros st; simpl; [reflexivity|].
  rewrite IH, work_strategy_outcomes. symmetry. apply Permutation_middle.
Qed.

Lemma prepare_outcomes strategies st0 :
  prepare env cfgs = inr (strategies, st0) ->
  outcomes st0 = [] /\ workCalls st0 = []
  /\ exists all, job_strategies env 0 = Some all /\ strategies = eligible all.
Proof.
  unfold prepare.
  destruct (job_strategies env 0) as [all|]; [|discriminate].
  destruct (getLastWorksAt env 1 (eligible all)) as [lws|]; [|discriminate].
  destruct (map_rewards cfgs lws _) as [e|st] eqn:Hm; [discriminate|].
  intros [= <- <-]. apply same_lists_map_rewards in Hm.
  destruct Hm as [Hw Hn Hc He Hk]. unfold outcomes. rewrite Hw, Hn, Hc, He, Hk.
  split; [reflexivity|]. split; [reflexivity|]. eauto.
Qed.

(** X9.  In a run that completes, the four lists together hold each
    strategy of the job that is not on the deny list exactly as often as
    the job returned it; [work] is called for such strategies only; a
    strategy of the deny list is in no list and is never worked. *)
Theorem every_strategy_is_accounted_for (final : State) :
  main env cfgs = inr final ->
  exists all,
    job_strategies env 0 = Some all
    /\ Permutation (outcomes final) (eligible all)
    /\ (forall strategy limit, In (strategy, limit) (workCalls final) ->
          In strategy (eligible all))
    /\ (forall strategy, In strategy sbeetStrats ->
          ~ In strategy (outcomes final)
          /\ forall limit, ~ In (strategy, limit) (workCalls final)).
Proof.
  unfold main. destruct (prepare env cfgs) as [e|[strategies st0]] eqn:Hp; [discriminate|].
  intros [= <-].
  destruct (prepare_outcomes _ _ Hp) as (Ho & Hk & all & Hs & ->).
  exists all. split; [exact Hs|].
  assert (HP : Permutation (outcomes (fold_left (work_strategy env cfgs) (eligible all) st0))
                 (eligible all)).
  { rewrite loop_outcomes, Ho, app_nil_r. reflexivity. }
  assert (HK : forall strategy limit,
             In (strategy, limit)
                (workCalls (fold_left (work_strategy env cfgs) (eligible all) st0)) ->
             In strategy (eligible all)).
  { intros s limit Hin.
    destruct (loop_lists env cfgs (eligible all) st0) as [_ (more & E & Hm)].
    rewrite E, Hk in Hin. simpl in Hin. eauto. }
  split; [exact HP|]. split; [exact HK|].
  intros s Hd. split.
  - intros Hin. apply (Permutation_in _ HP) in Hin.
    apply eligible_In in Hin. tauto.
  - intros limit Hin. apply HK in Hin. apply eligible_In in Hin. tauto.
Qed.

Lemma calls_from_estimates_same st st' :
  workCalls st' = workCalls st -> calls_from_estimates env st -> calls_from_estimates env st'.
Proof. unfold calls_from_estimates. intros ->. auto. Qed.

Lemma work_strategy_calls st strategy :
  calls_from_estimates env st ->
  (forall s, In s (worked st) -> exists limit, In (s, limit) (workCalls st)) ->
  calls_from_estimates env (work_strategy env cfgs st strategy)
  /\ (forall s, In s (worked (work_strategy env cfgs st strategy)) ->
        exists limit, In (s, limit) (workCalls (work_strategy env cfgs st strategy))).
Proof.
  intros Hc Hw. unfold work_strategy.
  destruct (job_workable env (now st) strategy) as [[|]|]; simpl; auto.
  destruct (find_configuration cfgs strategy) as [hc|]; simpl; auto.
  destruct (fold_left _ _ _) as [st1 b] eqn:Hcd.
  apply cooldown_rounds_state in Hcd. destruct Hcd as ([Ew _ _ _ Ek] & _).
  simpl in Ew, Ek.
  assert (Hc1 : calls_from_estimates env st1) by (eapply calls_from_estimates_same; eauto).
  assert (Hw1 : forall s, In s (worked st1) -> exists limit, In (s, limit) (workCalls st1)).
  { rewrite Ew, Ek. exact Hw. }
  destruct b; simpl; [auto|].
  destruct (job_estimateGas_work env (now st1) strategy) as [g|] eqn:Hg; simpl; [|auto].
  assert (Hc2 : calls_from_estimates env
                  (push_workCall strategy (JS.div (JS.mul g 110) 100) (tick st1))).
  { intros s limit. simpl. rewrite in_app_iff. intros [Hin|[[= <- <-]|[]]].
    - apply Hc1. exact Hin.
    - exists (now st1), g. split; [exact Hg | reflexivity]. }
  destruct (job_work env _ strategy _) as [tx|]; simpl.
  - destruct (same_lists_mark_dumped env (tokensBeingDumped hc)
                (tick (push_workCall strategy (JS.div (JS.mul g 110) 100) (tick st1))))
      as [Ew' _ _ _ Ek'].
    simpl in Ew', Ek'. split.
    + eapply calls_from_estimates_same; [|exact Hc2]. simpl. exact Ek'.
    + intros s. rewrite Ew', Ek'. rewrite in_app_iff. intros [Hin|[<-|[]]].
      * destruct (Hw1 s Hin) as [limit Hl]. exists limit. apply in_app_iff. auto.
      * eexists. apply in_app_iff. right. left. reflexivity.
  - split; [exact Hc2|]. intros s Hin. simpl.
    destruct (Hw1 s Hin) as [limit Hl]. exists limit. apply in_app_iff. auto.
Qed.

Lemma loop_calls l st :
  calls_from_estimates env st ->
  (forall s, In s (worked st) -> exists limit, In (s, limit) (workCalls st)) ->
  calls_from_estimates env (fold_left (work_strategy env cfgs) l st)
  /\ (forall s, In s (worked (fold_left (work_strategy env cfgs) l st)) ->
        exists limit, In (s, limit) (workCalls (fold_left (work_strategy env cfgs) l st))).
Proof.
  revert st. induction l as [|x l IH]; intros st Hc Hw; simpl; [auto|].
  destruct (work_strategy_calls st x Hc Hw) as [Hc' Hw']. apply IH; assumption.
Qed.

(** X10.  In a run that completes, every [work] call carries a gas limit
    of 110% (truncated) of an estimate the job gave for that strategy,
    which, for a non-negative estimate, is at least the estimate and
    exceeds it by at most a tenth; and every strategy of the worked list
    has a [work] call. *)
Theorem work_calls_carry_the_margin (final : State) :
  main env cfgs = inr final ->
  (forall strategy limit,
      In (strategy, limit) (workCalls final) ->
      exists t gasLimit,
        job_estimateGas_work env t strategy = Some gasLimit
        /\ limit = Z.quot (gasLimit * 110) 100
        /\ (0 <= gasLimit -> gasLimit <= limit /\ 10 * limit <= 11 * gasLimit
                             /\ 11 * gasLimit < 10 * limit + 10))
  /\ (forall strategy, In strategy (worked final) ->
        exists limit, In (strategy, limit) (workCalls final)).
Proof.
  unfold main. destruct (prepare env cfgs) as [e|[strategies st0]] eqn:Hp; [discriminate|].
  intros [= <-].
  destruct (prepare_lists env cfgs _ _ Hp) as (Hw0 & Hk0 & _).
  destruct (loop_calls strategies st0) as [Hc Hw].
  { intros s limit. rewrite Hk0. intros []. }
  { intros s. rewrite Hw0. intros []. }
  split; [|exact Hw].
  intros s limit Hin. destruct (Hc s limit Hin) as (t & g & Hg & ->).
  exists t, g. split; [exact Hg|]. split; [reflexivity|].
  intros Hpos.
  pose proof (Z.quot_rem' (g * 110) 100) as Hqr.
  pose proof (Z.rem_bound_pos (g * 110) 100 ltac:(lia) ltac:(lia)) as Hb.
  lia.
Qed.
Lemma within_cooldown_tick st token tokens i :
  within_cooldown env (tick st) tokens i <-> within_cooldown env st (token :: tokens) (S i).
Proof.
  unfold within_cooldown. simpl. rewrite Nat.add_succ_r. reflexivity.
Qed.

Lemma cooldown_rounds_decision tokens st st1 b :
  fold_left (cooldown_round env) tokens (st, false) = (st1, b) ->
  b = true <-> exists i, within_cooldown env st tokens i.
Proof.
  revert st. induction tokens as [|t tokens IH]; intros st; simpl.
  - intros [= <- <-]. split; [discriminate|].
    intros (i & k & last & Hn & _). destruct i; discriminate.
  - destruct (lastTimeRewardWasDumped st !! t) as [last|] eqn:Et.
    + destruct (moment_unix env (now st) - REWARD_DUMPED_COOLDOWN <=? last)%Z eqn:Ec.
      * rewrite cooldown_rounds_true. intros [= <- <-]. split; [|reflexivity].
        intros _. exists 0%nat, t, last. rewrite Nat.add_0_r.
        apply Z.leb_le in Ec. auto.
      * intros Hf. rewrite (IH _ Hf). split.
        -- intros [i Hi]. exists (S i). apply within_cooldown_tick. exact Hi.
        -- intros [[|i] Hi].
           ++ destruct Hi as (k & l & [= <-] & Hk & Hle).
              rewrite Nat.add_0_r in Hle. apply Z.leb_gt in Ec.
              assert (l = last) by congruence. subst. lia.
           ++ exists i. apply (within_cooldown_tick st t). exact Hi.
    + intros Hf. rewrite (IH _ Hf). split.
      * intros [i Hi]. exists (S i). apply within_cooldown_tick. exact Hi.
      * intros [[|i] Hi].
        -- destruct Hi as (k & l & [= <-] & Hk & _). congruence.
        -- exists i. apply (within_cooldown_tick st t). exact Hi.
Qed.

Lemma work_strategy_on_cooldown st strategy hc :
  job_workable env (now st) strategy = Some true ->
  find_configuration cfgs strategy = Some hc ->
  (exists i, within_cooldown env (tick st) (tokensBeingDumped hc) i) ->
  let st' := work_strategy env cfgs st strategy in
  onLiquidityCooldown st' = (onLiquidityCooldown st ++ [strategy])%list
  /\ worked st' = worked st
  /\ workCalls st' = workCalls st
  /\ lastTimeRewardWasDumped st' = lastTimeRewardWasDumped st.
Proof.
  intros Hw Hc Hex st'. subst st'. unfold work_strategy. rewrite Hw, Hc.
  destruct (fold_left _ _ _) as [st1 b] eqn:Hcd.
  apply (cooldown_rounds_decision _ _ _ _ Hcd) in Hex. subst b.
  apply cooldown_rounds_state in Hcd. destruct Hcd as ([Ew _ Ec Ee Ek] & Em & _).
  simpl in Ew, Ec, Ee, Ek, Em. simpl. rewrite Ew, Ec, Ek, Em. auto.
Qed.

(** X11.  A workable strategy is put on cooldown, with no [work] call and
    no change to the timestamps, exactly when the round of one of its
    dumped tokens finds the token's last dump no more than 150 seconds
    before the clock read in that round; otherwise it ends as worked or
    as errored. *)
Theorem cooldown_decision (st : State) (strategy : string) (hc : HarvestConfiguration) :
  job_workable env (now st) strategy = Some true ->
  find_configuration cfgs strategy = Some hc ->
  let st' := work_strategy env cfgs st strategy in
  ((exists i, within_cooldown env (tick st) (tokensBeingDumped hc) i) ->
     onLiquidityCooldown st' = (onLiquidityCooldown st ++ [strategy])%list
     /\ worked st' = worked st
     /\ workCalls st' = workCalls st
     /\ lastTimeRewardWasDumped st' = lastTimeRewardWasDumped st)
  /\ ((forall i, ~ within_cooldown env (tick st) (tokensBeingDumped hc) i) ->
     onLiquidityCooldown st' = onLiquidityCooldown st
     /\ (In strategy (worked st') \/ In strategy (errorWhileWorked st'))).
Proof.
  intros Hw Hc st'. subst st'. unfold work_strategy. rewrite Hw, Hc.
  destruct (fold_left _ _ _) as [st1 b] eqn:Hcd.
  pose proof (cooldown_rounds_decision _ _ _ _ Hcd) as Hd.
  apply cooldown_rounds_state in Hcd. destruct Hcd as ([Ew _ Ec Ee Ek] & Em & _).
  simpl in Ew, Ec, Ee, Ek, Em.
  split.
  - intros Hex. apply Hd in Hex. subst b. simpl. rewrite Ew, Ec, Ek, Em. auto.
  - intros Hno. destruct b; [exfalso; destruct (proj1 Hd eq_refl) as [i Hi]; exact (Hno i Hi)|].
    destruct (job_estimateGas_work env (now st1) strategy) as [g|]; simpl;
      [|split; [exact Ec | right; apply in_app_iff; right; left; reflexivity]].
    destruct (job_work env _ strategy _) as [tx|]; simpl;
      [|split; [exact Ec | right; apply in_app_iff; right; left; reflexivity]].
    destruct (same_lists_mark_dumped env (tokensBeingDumped hc)
                (tick (push_workCall strategy (JS.div (JS.mul g 110) 100) (tick st1))))
      as [_ _ Ec' _ _].
    simpl in Ec'. split; [rewrite Ec'; exact Ec|].
    left. apply in_app_iff. right. left. reflexivity.
Qed.

Lemma mark_dumped_other tokens st k :
  ~ In k tokens ->
  lastTimeRewardWasDumped (fold_left (mark_dumped env) tokens st) !! k
  = lastTimeRewardWasDumped st !! k.
Proof.
  revert st. induction tokens as [|t tokens IH]; intros st Hk; simpl; [reflexivity|].
  rewrite IH by (intros Hin; apply Hk; right; exact Hin).
  unfold mark_dumped. simpl. apply lookup_insert_ne. intros ->. apply Hk. left. reflexivity.
Qed.

Lemma mark_dumped_marked tokens st k :
  clock_monotone env ->
  In k tokens ->
  exists v,
    lastTimeRewardWasDumped (fold_left (mark_dumped env) tokens st) !! k = Some v
    /\ moment_unix env (now st) <= v.
Proof.
  intros Hclock. revert st. induction tokens as [|t tokens IH]; intros st Hin; [destruct Hin|].
  simpl. destruct (in_dec String.string_dec k tokens) as [Hk|Hk].
  - destruct (IH (mark_dumped env st t) Hk) as (v & Hv & Hle).
    exists v. split; [exact Hv|].
    unfold mark_dumped in Hle. simpl in Hle.
    pose proof (Hclock (now st) (S (now st)) ltac:(lia)). lia.
  - destruct Hin as [->|Hin]; [|contradiction].
    rewrite mark_dumped_other by exact Hk.
    unfold mark_dumped. simpl. rewrite lookup_insert_eq.
    exists (moment_unix env (now st)). split; [reflexivity | lia].
Qed.

(** X12.  When a strategy has just been worked and the next one is
    workable, shares one of its dumped tokens, and has its cooldown rounds
    within 150 seconds of the first one's [work] call (the clock never going
    back), the next one is put on cooldown: no [work] call is made for it
    and the timestamps stay. *)
Theorem shared_token_cooldown
    (st st1 : State) (first second : string) (hc hc' : HarvestConfiguration)
    (gasLimit : Z) (tx token : string) :
  clock_monotone env ->
  job_workable env (now st) first = Some true ->
  find_configuration cfgs first = Some hc ->
  fold_left (cooldown_round env) (tokensBeingDumped hc) (tick st, false) = (st1, false) ->
  job_estimateGas_work env (now st1) first = Some gasLimit ->
  job_work env (S (now st1)) first (Z.quot (gasLimit * 110) 100) = Some tx ->
  let st' := work_strategy env cfgs st first in
  job_workable env (now st') second = Some true ->
  find_configuration cfgs second = Some hc' ->
  In token (tokensBeingDumped hc) ->
  In token (tokensBeingDumped hc') ->
  moment_unix env (now st' + length (tokensBeingDumped hc')) - REWARD_DUMPED_COOLDOWN
  <= moment_unix env (S (S (now st1))) ->
  let st'' := work_strategy env cfgs st' second in
  In first (worked st')
  /\ onLiquidityCooldown st'' = (onLiquidityCooldown st' ++ [second])%list
  /\ worked st'' = worked st'
  /\ workCalls st'' = workCalls st'
  /\ lastTimeRewardWasDumped st'' = lastTimeRewardWasDumped st'.
Proof.
  intros Hclock Hw Hc Hcd Hg Hwork st' Hw' Hc' Hin Hin' Hwin st''.
  pose proof (work_strategy_works env cfgs st first hc st1 gasLimit tx Hw Hc Hcd Hg Hwork)
    as Hstep.
  fold st' in Hstep.
  split.
  { rewrite Hstep. simpl. apply in_app_iff. right. left. reflexivity. }
  destruct (mark_dumped_marked (tokensBeingDumped hc)
              (tick (push_workCall first (Z.quot (gasLimit * 110) 100) (tick st1)))
              token Hclock Hin) as (v & Hv & Hle).
  simpl in Hle.
  assert (Hv' : lastTimeRewardWasDumped st' !! token = Some v).
  { rewrite Hstep. simpl. exact Hv. }
  apply (work_strategy_on_cooldown st' second hc' Hw' Hc').
  destruct (In_nth_error _ _ Hin') as [i Hi].
  exists i, token, v. split; [exact Hi|]. split; [exact Hv'|].
  assert (Hlt : (i < length (tokensBeingDumped hc'))%nat).
  { apply nth_error_Some. rewrite Hi. discriminate. }
  simpl.
  pose proof (Hclock (S (now st') + i)%nat (now st' + length (tokensBeingDumped hc'))%nat
                ltac:(lia)) as Hmono.
  simpl in Hmono. lia.
Qed.
Lemma work_strategy_marks st strategy k :
  lastTimeRewardWasDumped (work_strategy env cfgs st strategy) !! k
  <> lastTimeRewardWasDumped st !! k ->
  In strategy (worked (work_strategy env cfgs st strategy))
  /\ exists hc, find_configuration cfgs strategy = Some hc /\ In k (tokensBeingDumped hc).
Proof.
  unfold work_strategy.
  destruct (job_workable env (now st) strategy) as [[|]|]; simpl; try congruence.
  destruct (find_configuration cfgs strategy) as [hc|]; simpl; try congruence.
  destruct (fold_left _ _ _) as [st1 b] eqn:Hcd.
  apply cooldown_rounds_state in Hcd. destruct Hcd as (_ & Em & _).
  simpl in Em.
  destruct b; simpl; [congruence|].
  destruct (job_estimateGas_work env (now st1) strategy) as [g|]; simpl; [|congruence].
  destruct (job_work env _ strategy _) as [tx|]; simpl; [|congruence].
  intros Hne. split; [apply in_app_iff; right; left; reflexivity|].
  exists hc. split; [reflexivity|].
  destruct (in_dec String.string_dec k (tokensBeingDumped hc)) as [Hin|Hout]; [exact Hin|].
  exfalso. apply Hne. rewrite mark_dumped_other by exact Hout. simpl. rewrite Em. reflexivity.
Qed.

Lemma loop_marks l st k :
  lastTimeRewardWasDumped (fold_left (work_strategy env cfgs) l st) !! k
  <> lastTimeRewardWasDumped st !! k ->
  exists strategy hc,
    In strategy l
    /\ In strategy (worked (fold_left (work_strategy env cfgs) l st))
    /\ find_configuration cfgs strategy = Some hc
    /\ In k (tokensBeingDumped hc).
Proof.
  revert st. induction l as [|x l IH]; intros st; simpl; [congruence|].
  intros Hne.
  destruct (decide (lastTimeRewardWasDumped (work_strategy env cfgs st x) !! k
                    = lastTimeRewardWasDumped st !! k)) as [E|Hx].
  - rewrite <- E in Hne. destruct (IH _ Hne) as (s & hc & Hl & Hw & Hc & Hk).
    exists s, hc. auto.
  - destruct (work_strategy_marks st x k Hx) as (Hw & hc & Hc & Hk).
    exists x, hc. split; [left; reflexivity|]. split; [|auto].
    destruct (loop_lists env cfgs l (work_strategy env cfgs st x)) as [(more & E & _) _].
    rewrite E. apply in_app_iff. left. exact Hw.
Qed.

(** X14.  In a run that completes, a timestamp of the map differs from
    what the construction left only for a token dumped by a strategy of
    the worked list. *)
Theorem marks_only_for_worked (final : State) :
  main env cfgs = inr final ->
  exists strategies st0,
    prepare env cfgs = inr (strategies, st0)
    /\ forall token,
        lastTimeRewardWasDumped final !! token <> lastTimeRewardWasDumped st0 !! token ->
        exists strategy hc,
          In strategy (worked final)
          /\ find_configuration cfgs strategy = Some hc
          /\ In token (tokensBeingDumped hc).
Proof.
  unfold main. destruct (prepare env cfgs) as [e|[strategies st0]] eqn:Hp; [discriminate|].
  intros [= <-]. exists strategies, st0. split; [reflexivity|].
  intros token Hne. destruct (loop_marks _ _ _ Hne) as (s & hc & _ & Hw & Hc & Hk).
  eauto.
Qed.

Lemma work_strategy_notWorkable st strategy x :
  In x (notWorkable st) -> In x (notWorkable (work_strategy env cfgs st strategy)).
Proof.
  intros Hin. unfold work_strategy.
  destruct (job_workable env (now st) strategy) as [[|]|]; simpl; auto.
  - destruct (find_configuration cfgs strategy) as [hc|]; simpl; auto.
    destruct (fold_left _ _ _) as [st1 b] eqn:Hcd.
    apply cooldown_rounds_state in Hcd. destruct Hcd as ([_ En _ _ _] & _).
    simpl in En.
    destruct b; simpl; [rewrite En; exact Hin|].
    destruct (job_estimateGas_work env (now st1) strategy) as [g|]; simpl;
      [|rewrite En; exact Hin].
    destruct (job_work env _ strategy _) as [tx|]; simpl; [|rewrite En; exact Hin].
    destruct (same_lists_mark_dumped env (tokensBeingDumped hc)
                (tick (push_workCall strategy (JS.div (JS.mul g 110) 100) (tick st1))))
      as [_ En' _ _ _].
    simpl in En'. rewrite En', En. exact Hin.
  - apply in_app_iff. left. exact Hin.
Qed.

Lemma loop_notWorkable l st x :
  In x (notWorkable st) -> In x (notWorkable (fold_left (work_strategy env cfgs) l st)).
Proof.
  revert st. induction l as [|s l IH]; intros st Hin; simpl; [exact Hin|].
  apply IH, work_strategy_notWorkable, Hin.
Qed.

Lemma count_occ_one_of_four (a b c d : list string) (s : string) :
  count_occ String.string_dec (a ++ b ++ c ++ d) s = 1%nat ->
  In s b -> ~ In s a /\ ~ In s c /\ ~ In s d.
Proof.
  rewrite !count_occ_app. intros Hc Hb.
  apply (count_occ_In String.string_dec) in Hb.
  repeat split; intros Hin; apply (count_occ_In String.string_dec) in Hin; lia.
Qed.

(** X13.  A strategy that the job returned once and that is not workable at
    its turn is in the not-workable list of the completed run, in none of
    the three other lists, and [work] is never called for it. *)
Theorem not_workable_is_only_recorded
    (pre post : list string) (strategy : string) (st0 : State) :
  prepare env cfgs = inr (pre ++ strategy :: post, st0)%list ->
  ~ In strategy pre -> ~ In strategy post ->
  job_workable env (now (fold_left (work_strategy env cfgs) pre st0)) strategy = Some false ->
  exists final,
    main env cfgs = inr final
    /\ In strategy (notWorkable final)
    /\ ~ In strategy (worked final)
    /\ ~ In strategy (onLiquidityCooldown final)
    /\ ~ In strategy (errorWhileWorked final)
    /\ forall limit, ~ In (strategy, limit) (workCalls final).
Proof.
  intros Hprep Hpre Hpost Hw.
  unfold main. rewrite Hprep. eexists. split; [reflexivity|].
  assert (Hn : In strategy
                 (notWorkable (fold_left (work_strategy env cfgs)
                                 (pre ++ strategy :: post) st0))).
  { rewrite fold_left_app. simpl. apply loop_notWorkable.
    unfold work_strategy at 1. rewrite Hw. simpl. apply in_app_iff. right. left. reflexivity. }
  split; [exact Hn|].
  destruct (prepare_outcomes _ _ Hprep) as (Ho & Hk & _).
  pose proof (loop_outcomes (pre ++ strategy :: post) st0) as HP.
  rewrite Ho, app_nil_r in HP.
  assert (Hc : count_occ String.string_dec
                 (outcomes (fold_left (work_strategy env cfgs)
                              (pre ++ strategy :: post) st0)) strategy = 1%nat).
  { rewrite (Permutation_count_occ String.string_dec) in HP. rewrite HP.
    rewrite count_occ_app. simpl.
    rewrite (proj1 (count_occ_not_In String.string_dec pre strategy) Hpre).
    rewrite (proj1 (count_occ_not_In String.string_dec post strategy) Hpost).
    destruct (String.string_dec strategy strategy); [reflexivity | congruence]. }
  destruct (count_occ_one_of_four _ _ _ _ _ Hc Hn) as (H1 & H2 & H3).
  split; [exact H1|]. split; [exact H2|]. split; [exact H3|].
  intros limit Hin. rewrite fold_left_app in Hin. simpl in Hin.
  destruct (loop_lists env cfgs pre st0) as [_ (c1 & E1 & Hc1)].
  rewrite Hk in E1. simpl in E1.
  destruct (loop_lists env cfgs post
              (work_strategy env cfgs (fold_left (work_strategy env cfgs) pre st0) strategy))
    as [_ (c2 & E2 & Hc2)].
  rewrite E2 in Hin. unfold work_strategy in Hin at 1. rewrite Hw in Hin. simpl in Hin.
  rewrite E1 in Hin. apply in_app_iff in Hin. destruct Hin as [Hin|Hin]; eauto.
Qed.

End FurtherWorkerProperties.

(** ** The further properties on the scripted chains and jobs *)

(** X1 on the trade of the three-pool solver. *)
Lemma no_trade_matches_both_witness :
  CurveSpellEthMulticall.match_ three_pool_trade = false.
Proof. apply no_trade_matches_both. reflexivity. Defined.

(** X2 on the scripted chain: 1000 3crv, and 1000 yveCRV at the end. *)
Lemma three_pool_matched_trade_witness :
  exists w setup,
    three_pool_run = (w, inr setup)
    /\ map d_amount (e_trades (transaction setup)) = [1000]
    /\ map d_minAmountOut (e_trades (transaction setup)) = [1000].
Proof.
  destruct three_pool_run as [w [e|setup]] eqn:E; [vm_compute in E; discriminate E|].
  destruct (@three_pool_matched_trade nat (scripted three_pool_script) 0%nat
              three_pool_trade w setup eq_refl E) as (_ & _ & Ht & _).
  exists w, setup. split; [reflexivity|]. rewrite Ht.
  vm_compute in E. injection E as <- _. split; reflexivity.
Defined.

(** X3 on the scripted chain: 4 CRV and 3 CVX. *)
Lemma curve_spell_descriptors_witness :
  exists w setup,
    curve_spell_run 4 3 5 0 = (w, inr setup)
    /\ map d_amount (e_trades (transaction setup)) = [4; 3]
    /\ Forall (fun d => d_minAmountOut d = 0) (e_trades (transaction setup)).
Proof.
  destruct (curve_spell_run 4 3 5 0) as [w [e|setup]] eqn:E;
    [vm_compute in E; discriminate E|].
  destruct (@curve_spell_descriptors nat (scripted (curve_spell_script 4 3 5 0)) 0%nat
              crv_cvx_trade w setup E) as (_ & Ha & _ & Hf & _).
  exists w, setup. split; [reflexivity|]. split; [exact Ha|].
  eapply List.Forall_impl; [|exact Hf]. intros d (Hd & _). exact Hd.
Defined.

(** X4 on a chain that rejects the swap. *)
Lemma a_failed_call_ends_the_solve_witness :
  exists e,
    snd (@run nat _ (@ThreePoolCrvMulticall.solve nat (scripted rejected_swap_script)
                       three_pool_trade) 0%nat)
    = inl (CallFailed e)
    /\ last (w_trace (fst (@run nat _
                (@ThreePoolCrvMulticall.solve nat (scripted rejected_swap_script)
                   three_pool_trade) 0%nat)))
       = Some e.
Proof.
  eexists. split; [vm_compute; reflexivity|].
  apply (proj1 (@a_failed_call_ends_the_solve nat (scripted rejected_swap_script) 0%nat
                  three_pool_trade)).
  vm_compute. reflexivity.
Defined.

(** X6 on the scripted chain: nothing before, 990 after, 989 sold. *)
Lemma three_pool_leaves_dust_witness :
  exists sold,
    nth_error (w_trace (fst three_pool_run)) 2
    = Some (Quoted (ThreePoolCrvMulticall.quoteRequest sold))
    /\ sold <= 989.
Proof.
  destruct (@three_pool_leaves_dust nat (scripted three_pool_script)
              0%nat 1%nat 2%nat three_pool_trade)
    as (sold & Hq & Hle & _); [reflexivity | reflexivity | simpl; lia |].
  exists sold. split; [exact Hq | exact Hle].
Defined.

(** X7 on the scripted chain: no allowance, 989 sold, the approval is in
    the payload. *)
Lemma three_pool_first_approval_witness :
  exists w setup,
    three_pool_run = (w, inr setup)
    /\ e_data (transaction setup)
       = [call ThreePoolCrvMulticall.crv3Pool (remove_liquidity_one_coin 1000 1 0);
          call ThreePoolCrvMulticall.usdc (approve (allowanceTarget a_quote) JS.MaxUint256);
          call ThreePoolCrvMulticall.zrxContract (quoted (q_data a_quote));
          call ThreePoolCrvMulticall.yvBoost
            (vault_withdraw JS.MaxUint256 ThreePoolCrvMulticall.strategy 0)].
Proof.
  destruct three_pool_run as [w [e|setup]] eqn:E; [vm_compute in E; discriminate E|].
  exists w, setup. split; [reflexivity|].
  exact (@three_pool_first_approval nat (scripted three_pool_script) 0%nat 1%nat 2%nat
           three_pool_trade a_quote w setup eq_refl eq_refl eq_refl eq_refl E).
Defined.


(** X9 on the scripted job. *)
Lemma every_strategy_is_accounted_for_witness :
  exists final,
    main two_strategies_job two_configurations = inr final
    /\ Permutation (outcomes final) [strategy_a; strategy_b].
Proof.
  destruct (main two_strategies_job two_configurations) as [e|final] eqn:E;
    [vm_compute in E; discriminate E|].
  destruct (every_strategy_is_accounted_for two_strategies_job two_configurations final E)
    as (all & Ha & HP & _).
  exists final. split; [reflexivity|].
  simpl in Ha. injection Ha as <-. exact HP.
Defined.

(** X10 on the scripted job. *)
Lemma work_calls_carry_the_margin_witness :
  exists final,
    main two_strategies_job two_configurations = inr final
    /\ forall strategy, In strategy (worked final) ->
         exists limit, In (strategy, limit) (workCalls final).
Proof.
  destruct (main two_strategies_job two_configurations) as [e|final] eqn:E;
    [vm_compute in E; discriminate E|].
  exists final. split; [reflexivity|].
  apply (work_calls_carry_the_margin two_strategies_job two_configurations final E).
Defined.

(** X14 on the scripted job. *)
Lemma marks_only_for_worked_witness :
  exists final strategies st0,
    main two_strategies_job two_configurations = inr final
    /\ prepare two_strategies_job two_configurations = inr (strategies, st0).
Proof.
  destruct (main two_strategies_job two_configurations) as [e|final] eqn:E;
    [vm_compute in E; discriminate E|].
  destruct (marks_only_for_worked two_strategies_job two_configurations final E)
    as (strategies & st0 & Hp & _).
  exists final, strategies, st0. split; [reflexivity | exact Hp].
Defined.

(** X11 on the scripted job: the second strategy, seven seconds after the
    first was worked. *)
Lemma cooldown_decision_witness :
  onLiquidityCooldown
    (work_strategy two_strategies_job two_configurations after_first strategy_b)
  = [strategy_b].
Proof.
  destruct (cooldown_decision two_strategies_job two_configurations after_first strategy_b
              {| address := "0xbbBB"; tokensBeingDumped := [reward] |}
              eq_refl eq_refl) as [Hon _].
  destruct Hon as (Hc & _).
  - exists 0%nat, reward, 1007. split; [reflexivity|]. split; [vm_compute; reflexivity|].
    vm_compute. discriminate.
  - exact Hc.
Defined.

(** X12 on the scripted job: both strategies dump the same token. *)
Lemma shared_token_cooldown_witness :
  In strategy_a (worked after_first)
  /\ onLiquidityCooldown
       (work_strategy two_strategies_job two_configurations after_first strategy_b)
     = [strategy_b]
  /\ workCalls (work_strategy two_strategies_job two_configurations after_first strategy_b)
     = workCalls after_first.
Proof.
  destruct (shared_token_cooldown two_strategies_job two_configurations
              prepared (tick (tick prepared)) strategy_a strategy_b
              {| address := "0xaaAA"; tokensBeingDumped := [reward] |}
              {| address := "0xbbBB"; tokensBeingDumped := [reward] |}
              21001 "0x5eb1" reward)
    as (Ha & Hc & _ & Hk & _).
  - intros i j Hij. simpl. lia.
  - reflexivity.
  - reflexivity.
  - vm_compute. reflexivity.
  - reflexivity.
  - reflexivity.
  - reflexivity.
  - reflexivity.
  - left. reflexivity.
  - left. reflexivity.
  - vm_compute. discriminate.
  - split; [exact Ha|]. split; [exact Hc | exact Hk].
Defined.

(** X13 on the scripted job whose second strategy is not workable. *)
Lemma not_workable_is_only_recorded_witness :
  exists final,
    main idle_second_job two_configurations = inr final
    /\ In strategy_b (notWorkable final)
    /\ ~ In strategy_b (worked final).
Proof.
  destruct (prepare idle_second_job two_configurations) as [e|[l st0]] eqn:E;
    [vm_compute in E; discriminate E|].
  assert (El : l = ([strategy_a] ++ strategy_b :: [])%list).
  { vm_compute in E. injection E as <- _. reflexivity. }
  subst l.
  destruct (not_workable_is_only_recorded idle_second_job two_configurations
              [strategy_a] [] strategy_b st0 E)
    as (final & Hm & Hn & Hw & _).
  - intros [Hab|[]]. discriminate Hab.
  - intros [].
  - reflexivity.
  - exists final. auto.
Defined.
